(** * WhatsBot: a shallow embedding of [bot.py]

    The development follows the source file top to bottom:

    - [Py]      the Python primitives the bot relies on ([str.strip],
                [str.split], tuple unpacking, exceptions, truthiness);
    - [Soup]    the fragment of the BeautifulSoup document model used by
                [WhatsBot.message_block];
    - [Bot]     the [WhatsBot] methods themselves, written in a small
                state-and-exception monad over an explicit browser world;
    - [WhatsBot] the remaining methods ([__init__], [quit_driver],
                [last_message], [load_more_messages]);
    - [Example] the interactive driver of [example.py], over a terminal
                with typed lines and written output.

    Characters are code points below 256 ([ascii]); Python's [str] is
    modelled by [string]. *)

From Stdlib Require Import Ascii String List Arith Lia Bool.
From stdpp Require Import base option list strings gmap.

Local Open Scope string_scope.
Local Open Scope list_scope.

(* ===================================================================== *)
(** ** Python primitives *)
(* ===================================================================== *)

Module Py.

(** The exceptions that can travel through the bot.  [WebDriverException]
    stands for any fault raised by the browser-automation driver, [IOError]
    for a fault while reading the mapping file. *)
Inductive exn : Type :=
  | ValueError
  | IndexError
  | KeyError (key : string)
  | AttributeError (obj attr : string)
  | IOError
  | WebDriverException
  | Exception (msg : string).

(** The outcome of evaluating a Python expression or statement block. *)
Inductive outcome (A : Type) : Type :=
  | Return (a : A)
  | Raise (e : exn).
Arguments Return {A} a.
Arguments Raise {A} e.

Definition obind {A B} (c : outcome A) (k : A -> outcome B) : outcome B :=
  match c with
  | Return a => k a
  | Raise e => Raise e
  end.

(** [except (ValueError, IndexError):] catches exactly these two. *)
Definition is_value_or_index_error (e : exn) : bool :=
  match e with
  | ValueError | IndexError => true
  | _ => false
  end.

(** Code point of a character. *)
Definition ord (c : ascii) : nat := nat_of_ascii c.

(** [str.isspace] on the code points below 256: TAB, LF, VT, FF, CR, the
    four separators FS, GS, RS, US, SPACE, NEL and NBSP. *)
Definition isspace (c : ascii) : bool :=
  let n := ord c in
  (((9 <=? n) && (n <=? 13)) || ((28 <=? n) && (n <=? 32))
   || (n =? 133) || (n =? 160))%nat.

(** [c in chars] for a one-character string [c]. *)
Fixpoint char_in (chars : string) (c : ascii) : bool :=
  match chars with
  | EmptyString => false
  | String d rest => Ascii.eqb c d || char_in rest c
  end.

Fixpoint lstrip_by (p : ascii -> bool) (s : string) : string :=
  match s with
  | EmptyString => EmptyString
  | String c s' => if p c then lstrip_by p s' else s
  end.

Fixpoint rstrip_by (p : ascii -> bool) (s : string) : string :=
  match s with
  | EmptyString => EmptyString
  | String c s' =>
      match rstrip_by p s' with
      | EmptyString => if p c then EmptyString else String c EmptyString
      | r => String c r
      end
  end.

(** [s.strip(chars)]: drop leading and trailing characters of the set. *)
Definition strip_chars (chars : string) (s : string) : string :=
  rstrip_by (char_in chars) (lstrip_by (char_in chars) s).

(** [s.strip()]: drop leading and trailing whitespace. *)
Definition strip (s : string) : string :=
  rstrip_by isspace (lstrip_by isspace s).

(** [s.split(sep)] for a non-empty [sep]: cut at the non-overlapping
    occurrences of [sep], scanning from the left.  [skip] counts the
    characters of a separator that are still to be dropped and [cur] is the
    piece being accumulated. *)
Fixpoint split_from (sep : string) (skip : nat) (cur : string) (s : string)
  : list string :=
  match s with
  | EmptyString => [cur]
  | String c s' =>
      match skip with
      | S k => split_from sep k cur s'
      | O =>
          if String.prefix sep s
          then cur :: split_from sep (String.length sep - 1) EmptyString s'
          else split_from sep 0 (String.append cur (String c EmptyString)) s'
      end
  end.

Definition split (sep : string) (s : string) : list string :=
  split_from sep 0 EmptyString s.

(** [a, b = xs]: unpacking into exactly two targets. *)
Definition unpack2 {A} (xs : list A) : outcome (A * A) :=
  match xs with
  | [a; b] => Return (a, b)
  | _ => Raise ValueError
  end.

(** The newline character and the one-character string holding it. *)
Definition LF : ascii := ascii_of_nat 10.
Definition nl : string := String LF EmptyString.

(** [for c in s]: the characters of a string, in order. *)
Definition chars (s : string) : list ascii := list_ascii_of_string s.

End Py.

Import Py.

(* ===================================================================== *)
(** ** The BeautifulSoup document model *)
(* ===================================================================== *)

Module Soup.

(** A parsed node.  [class] is the one multi-valued attribute the bot looks
    at: the parser stores it as a list of class names, kept here in [cls]
    (empty when the attribute is absent); every other attribute is a plain
    string, kept in [attr]. *)
#[warnings="-register-all"]
Inductive node : Type :=
  | Tag (name : string) (cls : list string) (attr : gmap string string)
        (children : list node)
  | NavigableString (s : string)
  | Comment (s : string).

(** [tag.get('class', [])] *)
Definition get_class (n : node) : list string :=
  match n with
  | Tag _ cls _ _ => cls
  | _ => []
  end.

(** [tag.get(key, default)] for a single-valued attribute. *)
Definition get (n : node) (key default : string) : string :=
  match n with
  | Tag _ _ attr _ => match attr !! key with Some v => v | None => default end
  | _ => default
  end.

(** [attrs={key: True}]: the attribute is present, whatever its value. *)
Definition has_attr (key : string) (n : node) : bool :=
  match n with
  | Tag _ _ attr _ => bool_decide (is_Some (attr !! key))
  | _ => false
  end.

Definition contents (n : node) : list node :=
  match n with
  | Tag _ _ _ children => children
  | _ => []
  end.

(** [x in xs] on lists of strings. *)
Definition str_in (x : string) (xs : list string) : bool :=
  existsb (String.eqb x) xs.

(** The filter [(name, {'class': wanted})]: a tag of that name one of whose
    classes is one of the wanted ones. *)
Definition matches (name : string) (wanted : list string) (n : node) : bool :=
  match n with
  | Tag nm cls _ _ => String.eqb nm name && existsb (fun c => str_in c wanted) cls
  | _ => false
  end.

(** A node together with its chain of ancestors, nearest first. *)
Definition located : Type := list node * node.

(** [n] and everything below it in document order (a tag comes before its
    children, children from first to last), each with its ancestors. *)
Fixpoint subtree (anc : list node) (n : node) : list located :=
  (anc, n) ::
  match n with
  | Tag _ _ _ children =>
      (fix forest (l : list node) : list located :=
         match l with
         | [] => []
         | c :: l' => subtree (n :: anc) c ++ forest l'
         end) children
  | _ => []
  end.

Definition forest (anc : list node) (l : list node) : list located :=
  flat_map (subtree anc) l.

(** [tag.descendants] *)
Definition descendants (anc : list node) (n : node) : list located :=
  forest (n :: anc) (contents n).

(** [soup.find_all(name, {'class': wanted})] on a parsed document. *)
Definition find_all (doc : list node) (name : string) (wanted : list string)
  : list located :=
  List.filter (fun ln => matches name wanted (snd ln)) (forest [] doc).

(** [tag.find(name, {'class': wanted})]: first match below [tag]. *)
Definition find (ln : located) (name : string) (wanted : list string)
  : option located :=
  List.find (fun d => matches name wanted (snd d))
            (descendants (fst ln) (snd ln)).

(** [tag.find_parent(attrs={key: True})]: nearest ancestor carrying [key]. *)
Definition find_parent (ln : located) (key : string) : option node :=
  List.find (has_attr key) (fst ln).

(** The text strings below a tag, in document order. *)
Definition strings (ln : located) : list string :=
  flat_map (fun d => match snd d with NavigableString s => [s] | _ => [] end)
           (descendants (fst ln) (snd ln)).

Definition nonempty (s : string) : bool :=
  match s with EmptyString => false | _ => true end.

(** [tag.get_text(strip=True)]: every string stripped, the empty ones
    dropped, the rest joined without separator. *)
Definition get_text_strip (ln : located) : string :=
  String.concat EmptyString
    (List.filter nonempty (List.map Py.strip (strings ln))).

End Soup.

(* ===================================================================== *)
(** ** The bot *)
(* ===================================================================== *)

Module Bot.

Import Soup.

(** *** Message records ([message_data] in [message_block]) *)

(** The dictionary built for every message; the key [timestamp] holds the
    date and the key [type] the direction, ["in"] or ["out"]. *)
Record message_data : Type := {
  md_id : string;
  md_timestamp : string;
  md_time : string;
  md_sender : string;
  md_message : string;
  md_type : string
}.

Definition set_id (v : string) (m : message_data) : message_data :=
  {| md_id := v; md_timestamp := md_timestamp m; md_time := md_time m;
     md_sender := md_sender m; md_message := md_message m;
     md_type := md_type m |}.

Definition set_timestamp (v : string) (m : message_data) : message_data :=
  {| md_id := md_id m; md_timestamp := v; md_time := md_time m;
     md_sender := md_sender m; md_message := md_message m;
     md_type := md_type m |}.

Definition set_time (v : string) (m : message_data) : message_data :=
  {| md_id := md_id m; md_timestamp := md_timestamp m; md_time := v;
     md_sender := md_sender m; md_message := md_message m;
     md_type := md_type m |}.

Definition set_sender (v : string) (m : message_data) : message_data :=
  {| md_id := md_id m; md_timestamp := md_timestamp m; md_time := md_time m;
     md_sender := v; md_message := md_message m; md_type := md_type m |}.

Definition set_message (v : string) (m : message_data) : message_data :=
  {| md_id := md_id m; md_timestamp := md_timestamp m; md_time := md_time m;
     md_sender := md_sender m; md_message := v; md_type := md_type m |}.

(** The body of the [try] block of [message_block] (lines 203-208): both
    unpackings come first, the three assignments after them. *)
Definition parse_pre_text (pre_text : string) (m : message_data)
  : outcome message_data :=
  obind (unpack2 (Py.split "]" (Py.strip_chars "[]" pre_text)))
    (fun '(timestamp_part, sender) =>
  obind (unpack2 (Py.split ", " timestamp_part))
    (fun '(time, date) =>
  Return (set_sender (Py.strip_chars ": " sender)
         (set_timestamp (Py.strip date)
         (set_time (Py.strip time) m))))).

(** [try: ... except (ValueError, IndexError): pass] around the parse.  An
    exception of another class would leave the block; here it is kept in
    the outcome. *)
Definition try_parse_pre_text (pre_text : string) (m : message_data)
  : outcome message_data :=
  match parse_pre_text pre_text m with
  | Return m' => Return m'
  | Raise e => if is_value_or_index_error e then Return m else Raise e
  end.

(** One turn of the [for msg in messages] loop, up to the [append]. *)
Definition message_record (msg : located) : outcome message_data :=
  let message_data :=
    {| md_id := ""; md_timestamp := ""; md_time := ""; md_sender := "";
       md_message := "";
       md_type := if str_in "message-in" (get_class (snd msg))
                  then "in" else "out" |} in
  let message_data :=
    match find_parent msg "data-id" with
    | Some parent => set_id (get parent "data-id" "") message_data
    | None => message_data
    end in
  match find msg "div" ["copyable-text"] with
  | Some copyable_text =>
      let pre_text := get (snd copyable_text) "data-pre-plain-text" "" in
      obind (if nonempty pre_text
             then try_parse_pre_text pre_text message_data
             else Return message_data)
        (fun message_data =>
      match find copyable_text "span" ["selectable-text"] with
      | Some message_span =>
          Return (set_message (get_text_strip message_span) message_data)
      | None => Return message_data
      end)
  | None => Return message_data
  end.

(** The whole loop: [structured_messages] starts empty and every turn
    appends one record; an exception in a turn would end the loop. *)
Definition extract_loop (messages : list located)
  : outcome (list message_data) :=
  fold_left
    (fun acc msg =>
       obind acc (fun structured_messages =>
       obind (message_record msg) (fun message_data =>
       Return (structured_messages ++ [message_data]))))
    messages (Return []).

(** Lines 172-217 on an already parsed document. *)
Definition extract (doc : list node) : outcome (list message_data) :=
  extract_loop (find_all doc "div" ["message-in"; "message-out"]).

(** *** The browser world *)

(** A located [WebElement], named by an opaque handle. *)
Definition element : Type := nat.

(** What [send_keys] receives: ordinary characters and the special code
    points [Keys.ENTER], [Keys.SHIFT], [Keys.CONTROL]. *)
Inductive key : Type :=
  | Char (c : ascii)
  | ENTER
  | SHIFT
  | CONTROL.

(** The effects the bot has on the outside, in the order they happen. *)
Inductive event : Type :=
  | Quit (driver : nat)
  | Firefox (driver : nat) (options : list string) (service_args : list string)
  | Get (driver : nat) (url : string)
  | Sleep (seconds : N)
  | Click (e : element)
  | SendKeys (e : element) (keys : list key)
  | Print (structured_messages : list message_data).

(** [config.yml], loaded once into [CF]. *)
Record config : Type := {
  bot_profile : string;
  bot_url : string;
  bot_headless : bool;
  bot_marionette : string;
  bot_name : string;
  threshold_page : N;
  threshold_auth : N;
  threshold_default : N;
  map_file : string
}.

(** The mapping file: logical name to an object with keys ["type"] and
    ["value"]. *)
Abbreviation mapping := (gmap string (gmap string string)).

(** Everything the bot does not decide itself, as a function of what has
    happened so far:
    - [read_map file]: opening and parsing the mapping file;
    - [locate driver by value]: [driver.find_element(by, value)];
    - [locate_in e by value]: [e.find_element(by, value)];
    - [inner_html e]: the parsed [e.get_attribute('innerHTML')];
    - [fault ev]: the exception, if any, with which the driver answers the
      action [ev]. *)
Record browser : Type := {
  read_map : list event -> string -> outcome mapping;
  locate : list event -> nat -> string -> string -> outcome element;
  locate_in : list event -> element -> string -> string -> outcome element;
  inner_html : list event -> element -> outcome (list node);
  fault : list event -> event -> option exn
}.

(** The bot object and the history: [driver] is [self.driver], [spawned]
    counts the drivers started so far and names the next one. *)
Record world : Type := {
  driver : nat;
  spawned : nat;
  trace : list event
}.

(** The world after the events [evs] have happened. *)
Definition extend (w : world) (evs : list event) : world :=
  {| driver := driver w; spawned := spawned w; trace := trace w ++ evs |}.

(** Python values that travel between the methods. *)
Inductive value : Type :=
  | VNone
  | VBool (b : bool)
  | VStr (s : string)
  | VElem (e : element)
  | VList (records : list message_data).

(** [bool(v)] *)
Definition truthy (v : value) : bool :=
  match v with
  | VNone => false
  | VBool b => b
  | VStr s => nonempty s
  | VElem _ => true
  | VList l => match l with [] => false | _ => true end
  end.

Definition type_name (v : value) : string :=
  match v with
  | VNone => "NoneType"
  | VBool _ => "bool"
  | VStr _ => "str"
  | VElem _ => "WebElement"
  | VList _ => "list"
  end.

(** *** The monad: state and exceptions *)

Definition M (A : Type) : Type := world -> outcome A * world.

Definition ret {A} (a : A) : M A := fun w => (Return a, w).

Definition raise {A} (e : exn) : M A := fun w => (Raise e, w).

Definition bind {A B} (c : M A) (k : A -> M B) : M B :=
  fun w =>
    match c w with
    | (Return a, w') => k a w'
    | (Raise e, w') => (Raise e, w')
    end.

Notation "x <- c ;; k" := (bind c (fun x => k))
  (at level 100, c at next level, right associativity).
Notation "c ;;; k" := (bind c (fun _ => k))
  (at level 100, right associativity).

(** [try: body  except: handler], the bare [except] catching everything. *)
Definition try_except {A} (body handler : M A) : M A :=
  fun w =>
    match body w with
    | (Return a, w') => (Return a, w')
    | (Raise _, w') => handler w'
    end.

(** Lift a pure outcome. *)
Definition lift {A} (c : outcome A) : M A := fun w => (c, w).

(** [for x in xs: body(x)] *)
Fixpoint for_each {A} (xs : list A) (body : A -> M unit) : M unit :=
  match xs with
  | [] => ret tt
  | x :: xs' => body x ;;; for_each xs' body
  end.

(** [d[key]] on a dictionary with string keys. *)
Definition subscript {V} (d : gmap string V) (key : string) : M V :=
  match d !! key with
  | Some v => ret v
  | None => raise (KeyError key)
  end.

(** *** The methods of [WhatsBot] *)

Section Methods.

Variable B : browser.
Variable CF : config.

(** An action on the browser: it either faults, leaving no mark, or is
    recorded in the history. *)
Definition act (ev : event) : M unit :=
  fun w =>
    match fault B (trace w) ev with
    | Some e => (Raise e, w)
    | None => (Return tt, extend w [ev])
    end.

(** An effect the browser has no say in ([time.sleep], [print]). *)
Definition emit (ev : event) : M unit :=
  fun w => (Return tt, extend w [ev]).

Definition sleep (seconds : N) : M unit := emit (Sleep seconds).

(** [self.driver] and [self.driver = d] *)
Definition self_driver : M nat := fun w => (Return (driver w), w).

Definition set_self_driver (d : nat) : M unit :=
  fun w =>
    (Return tt, {| driver := d; spawned := spawned w; trace := trace w |}).

(** [getmap()] *)
Definition getmap : M mapping :=
  fun w => (read_map B (trace w) (map_file CF), w).

(** [self.driver.find_element(by, value)] *)
Definition driver_find_element (by_ value : string) : M element :=
  fun w => (locate B (trace w) (driver w) by_ value, w).

(** Attribute access on a value that has to be a [WebElement]. *)
Definition as_element (v : value) (attr : string) : M element :=
  match v with
  | VElem e => ret e
  | _ => raise (AttributeError (type_name v) attr)
  end.

(** [v.click()] *)
Definition click (v : value) : M unit :=
  e <- as_element v "click" ;; act (Click e).

(** [v.send_keys(keys)] *)
Definition send_keys (v : value) (keys : list key) : M unit :=
  e <- as_element v "send_keys" ;; act (SendKeys e keys).

(** [v.find_element(by, value)] *)
Definition element_find_element (v : value) (by_ value : string) : M element :=
  e <- as_element v "find_element" ;;
  fun w => (locate_in B (trace w) e by_ value, w).

(** [BeautifulSoup(v.get_attribute('innerHTML'), 'html.parser')] *)
Definition soup_of_inner_html (v : value) : M (list node) :=
  e <- as_element v "get_attribute" ;;
  fun w => (inner_html B (trace w) e, w).

(** [opendriver(headless)] (lines 263-284): a fresh driver started with
    the profile options, headless only if both the argument and the
    configuration ask for it. *)
Definition opendriver (headless : bool) : M nat :=
  let opt := ["--profile"; bot_profile CF] in
  let opt := if headless && bot_headless CF then opt ++ ["--headless"]
             else opt in
  fun w =>
    let d := spawned w in
    match act (Firefox d opt ["--marionette-port"; bot_marionette CF]) w with
    | (Return _, w') =>
        (Return d,
         {| driver := driver w'; spawned := S (spawned w');
            trace := trace w' |})
    | (Raise e, w') => (Raise e, w')
    end.

(** [find_element] (lines 78-94) *)
Definition find_element (element : string) : M value :=
  try_except
    (mp <- getmap ;;
     entry_t <- subscript mp element ;;
     by_ <- subscript entry_t "type" ;;
     entry_v <- subscript mp element ;;
     value <- subscript entry_v "value" ;;
     elem <- driver_find_element by_ value ;;
     ret (VElem elem))
    (ret (VBool false)).

(** [check_auth] (lines 96-108) *)
Definition check_auth : M bool :=
  logged <- find_element "logged" ;;
  if truthy logged then ret true
  else
    home <- find_element "home" ;;
    if truthy home then ret false
    else raise (Exception "Whatsapp Web not found!").

(** The body of the [while] loop of [authenticate] (lines 118-121). *)
Definition reopen : M unit :=
  d <- self_driver ;;
  act (Quit d) ;;;
  d' <- opendriver false ;;
  set_self_driver d' ;;;
  act (Get d' (bot_url CF)) ;;;
  sleep (threshold_auth CF).

(** [authenticate] (lines 110-122).  The loop has no bound of its own;
    [fuel] bounds the number of checks and [None] means that it ran out
    before the loop ended. *)
Fixpoint authenticate (fuel : nat) (w : world)
  : option (outcome bool * world) :=
  match fuel with
  | O => None
  | S fuel' =>
      match check_auth w with
      | (Raise e, w1) => Some (Raise e, w1)
      | (Return true, w1) => Some (Return true, w1)
      | (Return false, w1) =>
          match reopen w1 with
          | (Raise e, w2) => Some (Raise e, w2)
          | (Return _, w2) => authenticate fuel' w2
          end
      end
  end.

(** [open_contact] (lines 124-148).  The [try] block falls through to
    [return True]; its handler returns [False]. *)
Definition open_contact (contact : string) : M bool :=
  search <- find_element "search" ;;
  click search ;;;
  send_keys search [CONTROL; Char "A"%char] ;;;
  for_each (Py.chars contact) (fun letter => send_keys search [Char letter]) ;;;
  sleep (threshold_default CF) ;;;
  try_except
    (first_contact <-
       element_find_element search "xpath"
         ("//span[@title = '" +:+ contact +:+ "']") ;;
     click (VElem first_contact) ;;;
     ret true)
    (ret false).

(** [message_block] (lines 160-220): [return ''] when the block is not
    found; otherwise the records are printed and the method falls off its
    end, which returns [None]. *)
Definition message_block : M value :=
  message_block <- find_element "message_block" ;;
  if negb (truthy message_block) then ret (VStr "")
  else
    soup <- soup_of_inner_html message_block ;;
    structured_messages <- lift (extract soup) ;;
    emit (Print structured_messages) ;;;
    ret VNone.

(** [send_messages] (lines 222-246) *)
Definition send_messages (message : string) : M unit :=
  message_input <- find_element "message_input" ;;
  click message_input ;;;
  for_each (Py.chars ":robot") (fun c => send_keys message_input [Char c]) ;;;
  send_keys message_input [ENTER] ;;;
  let message_title := " *" +:+ bot_name CF +:+ "* :" +:+ nl in
  let message := message_title +:+ message in
  for_each (Py.split nl message)
    (fun text =>
       for_each (Py.chars text)
         (fun letter => send_keys message_input [Char letter]) ;;;
       send_keys message_input [SHIFT; ENTER]) ;;;
  send_keys message_input [ENTER].

End Methods.

End Bot.

Import Soup Bot.

(* ===================================================================== *)
(** ** The remaining methods of [WhatsBot] *)
(* ===================================================================== *)

Module WhatsBot.

Section Methods.

Variable B : browser.
Variable CF : config.

(** [e.text], the rendered text of a located element, as the browser shows
    it after what has happened so far. *)
Variable text : list event -> element -> outcome string.

(** [v.text] *)
Definition element_text (v : value) : M string :=
  e <- as_element v "text" ;;
  fun w => (text (trace w) e, w).

(** The part of [__init__] that touches the file system (lines 59-60): the
    profile directory is created unless it exists.  [dirs] is the set of
    paths that exist; of what [os.makedirs] creates, only the path itself
    is recorded. *)
Definition ensure_profile (dirs : gset string) : gset string :=
  if bool_decide (bot_profile CF ∈ dirs) then dirs
  else dirs ∪ {[ bot_profile CF ]}.

(** [__init__] (lines 51-66): the profile directory, then a driver, the
    target URL and the page wait.  [self.threshold] is [CF["threshold"]]
    throughout. *)
Definition init (headless : bool) (dirs : gset string) (w : world)
  : outcome unit * gset string * world :=
  let dirs' := ensure_profile dirs in
  let '(r, w') :=
    (d <- opendriver B CF headless ;;
     set_self_driver d ;;;
     act B (Get d (bot_url CF)) ;;;
     sleep (threshold_page CF)) w in
  (r, dirs', w').

(** [quit_driver] (lines 68-76); a driver object is always true. *)
Definition quit_driver : M unit :=
  d <- self_driver ;;
  act B (Quit d).

(** [last_message] (lines 150-158) *)
Definition last_message : M value :=
  last_message <- find_element B CF "last_message" ;;
  if truthy last_message
  then t <- element_text last_message ;; ret (VStr t)
  else ret (VStr "").

(** [load_more_messages] (lines 248-260) *)
Definition load_more_messages : M bool :=
  load_more <- find_element B CF "load_more_messages" ;;
  if truthy load_more
  then
    click B load_more ;;;
    sleep (threshold_default CF) ;;;
    ret true
  else ret false.

End Methods.

End WhatsBot.

(* ===================================================================== *)
(** ** The interactive driver ([example.py]) *)
(* ===================================================================== *)

Module Example.

(** [str.lower] on the code points below 256: the letters A-Z and the
    accented capitals 192-222, the multiplication sign 215 apart, move up
    by 32. *)
Definition lower_char (c : ascii) : ascii :=
  let n := Py.ord c in
  if (((65 <=? n) && (n <=? 90))
      || ((192 <=? n) && (n <=? 222) && negb (n =? 215)))%nat
  then ascii_of_nat (n + 32)
  else c.

Fixpoint lower (s : string) : string :=
  match s with
  | EmptyString => EmptyString
  | String c s' => String (lower_char c) (lower s')
  end.

(** What reaches the terminal: a printed line, a printed value, the prompt
    of an [input]. *)
Inductive printed : Type :=
  | Line (s : string)
  | Shown (v : value)
  | Prompt (s : string).

(** The machine around the bot: the paths that exist, the lines still to
    be typed by the user, what has been written to the terminal. *)
Record host : Type := {
  dirs : gset string;
  stdin : list string;
  stdout : list printed
}.

(** How a stretch of the program was left: it goes on with what follows
    it ([GoOn]), or the function returns ([Leave]). *)
Inductive flow : Type :=
  | GoOn
  | Leave.

(** State, exceptions and, for the loops, fuel: [None] means that the fuel
    ran out. *)
Definition IO (A : Type) : Type :=
  host -> world -> option (outcome A * host * world).

Definition io_ret {A} (a : A) : IO A := fun h w => Some (Return a, h, w).

Definition io_bind {A A'} (c : IO A) (k : A -> IO A') : IO A' :=
  fun h w =>
    match c h w with
    | Some (Return a, h', w') => k a h' w'
    | Some (Raise e, h', w') => Some (Raise e, h', w')
    | None => None
    end.

Notation "x <~ c ;; k" := (io_bind c (fun x => k))
  (at level 100, c at next level, right associativity).
Notation "c ;;~ k" := (io_bind c (fun _ => k))
  (at level 100, right associativity).

Definition out_of_fuel {A} : IO A := fun _ _ => None.

Definition write (p : printed) : IO unit :=
  fun h w =>
    Some (Return tt,
          {| dirs := dirs h; stdin := stdin h; stdout := stdout h ++ [p] |},
          w).

(** [print(s)] and [print(v)] *)
Definition print (s : string) : IO unit := write (Line s).
Definition print_value (v : value) : IO unit := write (Shown v).

(** [input(prompt)]: the prompt is written, then a line is read; at the
    end of the input Python raises [EOFError]. *)
Definition input (prompt : string) : IO string :=
  write (Prompt prompt) ;;~
  fun h w =>
    match stdin h with
    | [] => Some (Raise (Exception "EOFError"), h, w)
    | line :: rest =>
        Some (Return line,
              {| dirs := dirs h; stdin := rest; stdout := stdout h |}, w)
    end.

(** A method of the bot, run from the program. *)
Definition bot {A} (c : M A) : IO A :=
  fun h w => let '(r, w') := c w in Some (r, h, w').

Section Loops.

Variable B : browser.
Variable CF : config.
Variable text : list event -> element -> outcome string.

(** [WhatsBot(headless=...)] *)
Definition new_bot (headless : bool) : IO unit :=
  fun h w =>
    let '(r, dirs', w') := WhatsBot.init B CF headless (dirs h) w in
    Some (r, {| dirs := dirs'; stdin := stdin h; stdout := stdout h |}, w').

(** [bot.authenticate()] *)
Definition bot_authenticate (fuel : nat) : IO bool :=
  fun h w =>
    match authenticate B CF fuel w with
    | Some (r, w') => Some (r, h, w')
    | None => None
    end.

(** The message loop of option 1 (lines 78-88). *)
Fixpoint send_loop (fuel : nat) : IO flow :=
  match fuel with
  | O => out_of_fuel
  | S fuel' =>
      message <~
        input "Type your message (!end to change contact, !quit to exit) " ;;
      if String.eqb (lower message) "!end" then io_ret GoOn
      else if String.eqb (lower message) "!quit" then io_ret Leave
      else bot (send_messages B CF message) ;;~ send_loop fuel'
  end.

(** The reading loop of option 3 (lines 101-120). *)
Fixpoint block_loop (contact : string) (fuel : nat) : IO unit :=
  match fuel with
  | O => out_of_fuel
  | S fuel' =>
      messages <~ bot (message_block B CF) ;;
      (if truthy messages
       then print (nl +:+ "Message block from chat with " +:+ contact +:+ ":")
            ;;~ print_value messages
       else print "No messages found") ;;~
      load_more <~
        input (nl +:+ "Press Enter to continue, or type 'more' to load more messages: ") ;;
      if String.eqb (lower load_more) "more" then
        more <~ bot (WhatsBot.load_more_messages B CF) ;;
        if more
        then print "Loading more messages..." ;;~ block_loop contact fuel'
        else print "No more messages available or button not found" ;;~
             _ <~ input "Press Enter to continue..." ;;
             io_ret tt
      else io_ret tt
  end.

(** What is offered once the contact is open (lines 70-120). *)
Definition actions (contact : string) (fuel : nat) : IO flow :=
  print (nl +:+ "Select an action:") ;;~
  print "1. Send messages" ;;~
  print "2. Read last message" ;;~
  print "3. Read message block" ;;~
  option <~ input "Option: " ;;
  if String.eqb option "1" then send_loop fuel
  else if String.eqb option "2" then
    message <~ bot (WhatsBot.last_message B CF text) ;;
    (if truthy message
     then print (nl +:+ "Last message from " +:+ contact +:+ ":") ;;~
          print_value message
     else print "No messages found") ;;~
    _ <~ input (nl +:+ "Press Enter to continue...") ;;
    io_ret GoOn
  else if String.eqb option "3" then
    block_loop contact fuel ;;~ io_ret GoOn
  else io_ret GoOn.

(** The contact loop (lines 60-123): [GoOn] is the [break] on [!quit],
    [Leave] the [return] out of the message loop. *)
Fixpoint contact_loop (fuel : nat) : IO flow :=
  match fuel with
  | O => out_of_fuel
  | S fuel' =>
      contact <~
        input (nl +:+ "Which contact do you want to open? (!quit to exit) ") ;;
      if String.eqb (lower contact) "!quit" then io_ret GoOn
      else
        opened <~ bot (open_contact B CF contact) ;;
        if opened : bool then
          left <~ actions contact fuel' ;;
          match left with
          | Leave => io_ret Leave
          | GoOn => contact_loop fuel'
          end
        else print "Contact not found" ;;~ contact_loop fuel'
  end.

(** [send_messages_to_contact] (lines 41-126) *)
Definition send_messages_to_contact (fuel : nat) : IO unit :=
  new_bot false ;;~
  bot_authenticate fuel ;;~
  left <~ contact_loop fuel ;;
  match left with
  | Leave => io_ret tt
  | GoOn => bot (WhatsBot.quit_driver B)
  end.

(** [main] (lines 129-133) *)
Definition main (fuel : nat) : IO unit := send_messages_to_contact fuel.

End Loops.

End Example.

(* ===================================================================== *)
(** ** Vocabulary of the statements *)
(* ===================================================================== *)

(** The record with which every turn of the extraction loop starts. *)
Definition blank (type : string) : message_data :=
  {| md_id := ""; md_timestamp := ""; md_time := ""; md_sender := "";
     md_message := ""; md_type := type |}.

(** The message filter of [message_block]. *)
Definition is_message (n : node) : bool :=
  matches "div" ["message-in"; "message-out"] n.

(** The message nodes of a document, in document order. *)
Definition message_nodes (doc : list node) : list located :=
  find_all doc "div" ["message-in"; "message-out"].

(** Number of nodes below and including [n] that satisfy [p], counted by
    walking the tree. *)
Fixpoint count_nodes (p : node -> bool) (n : node) : nat :=
  (if p n then 1 else 0) +
  match n with
  | Tag _ _ _ children =>
      (fix go (l : list node) : nat :=
         match l with
         | [] => 0
         | c :: l' => count_nodes p c + go l'
         end) children
  | _ => 0
  end.

Definition count_forest (p : node -> bool) (l : list node) : nat :=
  list_sum (List.map (count_nodes p) l).

(** The metadata of a message cannot be used: the copyable-text node or its
    attribute is missing, the attribute is empty, or the parse of its value
    raises. *)
Definition metadata_unusable (msg : located) : bool :=
  match find msg "div" ["copyable-text"] with
  | None => true
  | Some copyable_text =>
      let pre_text := get (snd copyable_text) "data-pre-plain-text" "" in
      negb (nonempty pre_text) ||
      match parse_pre_text pre_text (blank "") with
      | Raise _ => true
      | Return _ => false
      end
  end.

(** The direction a node's classes stand for. *)
Definition direction_of (msg : located) : string :=
  if str_in "message-in" (get_class (snd msg)) then "in" else "out".

(** The selectable-text span of a message, when it has one. *)
Definition message_span_of (msg : located) : option located :=
  match find msg "div" ["copyable-text"] with
  | Some copyable_text => find copyable_text "span" ["selectable-text"]
  | None => None
  end.

(** The text of a message: the stripped text of that span. *)
Definition text_of (msg : located) : string :=
  match message_span_of msg with
  | Some message_span => get_text_strip message_span
  | None => ""
  end.

(** The record of a node, as a total function. *)
Definition record_of (msg : located) : message_data :=
  match message_record msg with
  | Return r => r
  | Raise _ => blank ""
  end.

(** What the data model asks of the record [r] built from the node [msg]:
    a direction that follows the node's classes, and the empty string in
    every field whose extraction fails. *)
Definition defaults_respected (msg : located) (r : message_data) : Prop :=
  (md_type r = "in" \/ md_type r = "out") /\
  (md_type r = "in" <-> str_in "message-in" (get_class (snd msg)) = true) /\
  (md_type r = "out" -> str_in "message-out" (get_class (snd msg)) = true) /\
  (find_parent msg "data-id" = None -> md_id r = "") /\
  (metadata_unusable msg = true ->
     md_time r = "" /\ md_timestamp r = "" /\ md_sender r = "") /\
  (message_span_of msg = None -> md_message r = "").

(** *** Sessions *)

(** The logical element is found: [find_element] hands back something
    true. *)
Definition found (B : browser) (CF : config) (name : string) (w : world)
  : bool :=
  match fst (find_element B CF name w) with
  | Return v => truthy v
  | Raise _ => false
  end.

(** The driver answers every action without a fault. *)
Definition no_faults (B : browser) : Prop :=
  forall (tr : list event) (ev : event), fault B tr ev = None.

(** One reopen cycle: the old handle is quit, a driver is started without
    the headless option and becomes the handle, it is sent to the target
    URL, and the bot waits the authentication threshold. *)
Definition reopen_events (CF : config) (w : world) : list event :=
  [ Quit (driver w);
    Firefox (spawned w) ["--profile"; bot_profile CF]
            ["--marionette-port"; bot_marionette CF];
    Get (spawned w) (bot_url CF);
    Sleep (threshold_auth CF) ].

Definition reopened (CF : config) (w : world) : world :=
  {| driver := spawned w; spawned := S (spawned w);
     trace := trace w ++ reopen_events CF w |}.

(** The world after [n] reopen cycles. *)
Fixpoint after_cycles (CF : config) (n : nat) (w : world) : world :=
  match n with
  | O => w
  | S n' => after_cycles CF n' (reopened CF w)
  end.

Definition is_firefox (ev : event) : bool :=
  match ev with Firefox _ _ _ => true | _ => false end.

(** Number of drivers started in a history. *)
Definition drivers_started (tr : list event) : nat :=
  length (List.filter is_firefox tr).

(** *** Composition *)

Definition soft_newline : list key := [SHIFT; ENTER].
Definition submit : list key := [ENTER].

(** One [send_keys] per character of [text]. *)
Definition keystrokes (text : string) : list (list key) :=
  List.map (fun c => [Char c]) (Py.chars text).

(** The marker and the submit key sent before the message. *)
Definition warm_up : list (list key) := keystrokes ":robot" ++ [submit].

(** The lines of the signed message. *)
Definition composed_lines (CF : config) (message : string) : list string :=
  Py.split nl ((" *" +:+ bot_name CF +:+ "* :" +:+ nl) +:+ message).

(** Every line followed by a soft newline. *)
Definition lines_each_ended (lines : list string) : list (list key) :=
  flat_map (fun text => keystrokes text ++ [soft_newline]) lines.

(** A soft newline between consecutive lines and none after the last, as
    the specification words it. *)
Fixpoint lines_separated (lines : list string) : list (list key) :=
  match lines with
  | [] => []
  | text :: rest =>
      match rest with
      | [] => keystrokes text
      | _ => keystrokes text ++ [soft_newline] ++ lines_separated rest
      end
  end.

Definition is_soft_newline (keys : list key) : bool :=
  match keys with [SHIFT; ENTER] => true | _ => false end.

Definition is_submit (keys : list key) : bool :=
  match keys with [ENTER] => true | _ => false end.

(** The composer as the specification words it: when the message input is
    found, what reaches it is a click, the warm-up, the lines separated by
    soft newlines and one submit key. *)
Definition composed_as_specified (B : browser) (CF : config)
    (message : string) (w : world) : Prop :=
  forall e : element,
    fst (find_element B CF "message_input" w) = Return (VElem e) ->
    trace (snd (send_messages B CF message w))
    = trace w ++ Click e ::
        List.map (SendKeys e)
          (warm_up ++ lines_separated (composed_lines CF message) ++ [submit]).

(** *** Sample data *)

Definition sample_config : config :=
  {| bot_profile := "profile"; bot_url := "https://web.whatsapp.com";
     bot_headless := true; bot_marionette := "2828"; bot_name := "Bot";
     threshold_page := 10; threshold_auth := 30; threshold_default := 2;
     map_file := "map.json" |}.

Definition selector (value : string) : gmap string string :=
  {[ "type" := "xpath"; "value" := value ]}.

Definition sample_mapping : mapping :=
  {[ "logged" := selector "//logged";
     "home" := selector "//home";
     "search" := selector "//search";
     "message_input" := selector "//input";
     "message_block" := selector "//block" ]}.

(** A conversation of three messages; the second has no metadata
    attribute. *)
Definition sample_in : node :=
  Tag "div" ["message-in"; "focusable"] ∅
    [ Tag "div" ["copyable-text"]
        {[ "data-pre-plain-text" := "[18:43, 15/1/2025] Dan Radeand: " ]}
        [ Tag "span" ["selectable-text"] ∅
            [ NavigableString " hello "; Comment "x";
              Tag "span" [] ∅ [NavigableString "there"] ] ] ].

Definition sample_row : node :=
  Tag "div" ["row"] {[ "data-id" := "id-1" ]} [sample_in].

Definition sample_out : node :=
  Tag "div" ["message-out"] ∅
    [ Tag "div" ["copyable-text"] ∅
        [ Tag "span" ["selectable-text"] ∅ [NavigableString "fine"] ] ].

Definition sample_last : node :=
  Tag "div" ["message-in"] ∅
    [ Tag "div" ["copyable-text"]
        {[ "data-pre-plain-text" := "[18:45, 15/1/2025] Dan Radeand: " ]}
        [ Tag "span" ["selectable-text"] ∅ [NavigableString "bye"] ] ].

Definition sample_block : list node := [sample_row; sample_out; sample_last].

(** The records of that conversation. *)
Definition sample_records : list message_data :=
  [ {| md_id := "id-1"; md_timestamp := "15/1/2025"; md_time := "18:43";
       md_sender := "Dan Radeand"; md_message := "hellothere";
       md_type := "in" |};
    {| md_id := ""; md_timestamp := ""; md_time := ""; md_sender := "";
       md_message := "fine"; md_type := "out" |};
    {| md_id := ""; md_timestamp := "15/1/2025"; md_time := "18:45";
       md_sender := "Dan Radeand"; md_message := "bye"; md_type := "in" |} ].

(** A browser that knows the mapping, never faults, shows the pre-login
    page until two drivers have been started and the logged-in page from
    then on, has a message input and a message block, and no search box. *)
Definition sample_browser : browser :=
  {| read_map := fun _ _ => Return sample_mapping;
     locate := fun tr _ _ value =>
       if String.eqb value "//logged" then
         if (2 <=? drivers_started tr)%nat then Return 1
         else Raise WebDriverException
       else if String.eqb value "//home" then
         if (2 <=? drivers_started tr)%nat then Raise WebDriverException
         else Return 2
       else if String.eqb value "//input" then Return 3
       else if String.eqb value "//block" then Return 4
       else Raise WebDriverException;
     locate_in := fun _ _ _ _ => Raise WebDriverException;
     inner_html := fun _ _ => Return sample_block;
     fault := fun _ _ => None |}.

Definition sample_world : world :=
  {| driver := 0; spawned := 1; trace := [] |}.

(** A browser in which nothing is ever found. *)
Definition lost_browser : browser :=
  {| read_map := fun _ _ => Return sample_mapping;
     locate := fun _ _ _ _ => Raise WebDriverException;
     locate_in := fun _ _ _ _ => Raise WebDriverException;
     inner_html := fun _ _ => Raise WebDriverException;
     fault := fun _ _ => None |}.

(** *** Further vocabulary: sessions *)

(** The events of a reopen cycle: a quit, a driver started with the profile
    options alone, the target URL, the authentication wait. *)
Definition is_reopen_event (CF : config) (ev : event) : Prop :=
  match ev with
  | Quit _ => True
  | Firefox _ options service_args =>
      options = ["--profile"; bot_profile CF] /\
      service_args = ["--marionette-port"; bot_marionette CF]
  | Get _ url => url = bot_url CF
  | Sleep seconds => seconds = threshold_auth CF
  | _ => False
  end.



(** A browser that shows the pre-login page to the first driver and a page
    with neither marker from the second driver on. *)
Definition confused_browser : browser :=
  {| read_map := fun _ _ => Return sample_mapping;
     locate := fun tr _ _ value =>
       if String.eqb value "//home" then
         if (1 <=? drivers_started tr)%nat then Raise WebDriverException
         else Return 2
       else Raise WebDriverException;
     locate_in := fun _ _ _ _ => Raise WebDriverException;
     inner_html := fun _ _ => Raise WebDriverException;
     fault := fun _ _ => None |}.

(** A mapping with every name the bot asks for. *)
Definition full_mapping : mapping :=
  {[ "logged" := selector "//logged";
     "home" := selector "//home";
     "search" := selector "//search";
     "message_input" := selector "//input";
     "message_block" := selector "//block";
     "last_message" := selector "//last";
     "load_more_messages" := selector "//more" ]}.

(** A logged-in browser in which every element is found, the contact
    ["Dan"] is listed and no other, and nothing faults. *)
Definition steady_browser : browser :=
  {| read_map := fun _ _ => Return full_mapping;
     locate := fun _ _ _ value =>
       if String.eqb value "//logged" then Return 1
       else if String.eqb value "//search" then Return 5
       else if String.eqb value "//input" then Return 3
       else if String.eqb value "//block" then Return 4
       else if String.eqb value "//last" then Return 6
       else if String.eqb value "//more" then Return 7
       else Raise WebDriverException;
     locate_in := fun _ _ _ value =>
       if String.eqb value "//span[@title = 'Dan']" then Return 8
       else Raise WebDriverException;
     inner_html := fun _ _ => Return sample_block;
     fault := fun _ _ => None |}.

(** A browser whose driver refuses every click. *)
Definition stiff_browser : browser :=
  {| read_map := fun _ _ => Return full_mapping;
     locate := locate steady_browser;
     locate_in := locate_in steady_browser;
     inner_html := inner_html steady_browser;
     fault := fun _ ev =>
       match ev with
       | Click _ => Some WebDriverException
       | _ => None
       end |}.

(** What the sample elements read. *)
Definition sample_text (tr : list event) (e : element) : outcome string :=
  if (e =? 6)%nat then Return "see you" else Raise WebDriverException.

(** *** Further vocabulary: contacts *)

(** The XPath with which [open_contact] looks for the contact entry. *)
Definition contact_xpath (contact : string) : string :=
  "//span[@title = '" +:+ contact +:+ "']".

(** The world once the search box [e] has been clicked and cleared, the
    name typed letter by letter and the wait made. *)
Definition search_typed (CF : config) (e : element) (contact : string)
    (w : world) : world :=
  extend w
    (Click e :: SendKeys e [CONTROL; Char "A"%char]
     :: List.map (fun c => SendKeys e [Char c]) (Py.chars contact)
     ++ [Sleep (threshold_default CF)]).

(** *** Further vocabulary: text *)

(** The character [c] does not occur in [s]. *)
Definition lacks (c : ascii) (s : string) : bool := negb (Py.char_in s c).

(** The last character of [String c s]. *)
Fixpoint last_char (c : ascii) (s : string) : ascii :=
  match s with
  | EmptyString => c
  | String d s' => last_char d s'
  end.

(** Neither the first nor the last character of [s] satisfies [p]. *)
Definition clean_ends (p : ascii -> bool) (s : string) : bool :=
  match s with
  | EmptyString => true
  | String c s' => negb (p c) && negb (p (last_char c s'))
  end.

(** The metadata attribute as the page writes it. *)
Definition pre_plain_text (time date sender : string) : string :=
  "[" +:+ time +:+ ", " +:+ date +:+ "] " +:+ sender +:+ ": ".

(** What a key event leaves in the input box: a character, a line break
    for the soft newline, nothing otherwise. *)
Definition key_text (keys : list key) : string :=
  match keys with
  | [Char c] => String c EmptyString
  | [SHIFT; ENTER] => nl
  | _ => EmptyString
  end.

Definition typed_text (ks : list (list key)) : string :=
  fold_right (fun keys rest => key_text keys +:+ rest) EmptyString ks.

(** A metadata triple that the attribute format can carry: no bracket or
    comma in time and date, no closing bracket in the sender, no blank at
    the ends of time and date, no colon or blank at the ends of the
    sender. *)
Definition plain_metadata (time date sender : string) : bool :=
  lacks "["%char time && lacks "]"%char time && lacks ","%char time &&
  lacks "]"%char date && lacks ","%char date &&
  lacks "]"%char sender &&
  clean_ends Py.isspace time && clean_ends Py.isspace date &&
  clean_ends (Py.char_in ": ") sender.

(** *** Further vocabulary: the interactive driver *)

Definition contact_prompt : string :=
  nl +:+ "Which contact do you want to open? (!quit to exit) ".

Definition message_prompt : string :=
  "Type your message (!end to change contact, !quit to exit) ".

(** The menu shown once a contact is open, up to the prompt. *)
Definition menu : list Example.printed :=
  [ Example.Line (nl +:+ "Select an action:");
    Example.Line "1. Send messages";
    Example.Line "2. Read last message";
    Example.Line "3. Read message block";
    Example.Prompt "Option: " ].

(** A line that the message loop takes as a command. *)
Definition is_command (s : string) : bool :=
  String.eqb (Example.lower s) "!end" || String.eqb (Example.lower s) "!quit".

(** The events of one message sent to the input [e]. *)
Definition message_events (CF : config) (e : element) (message : string)
  : list event :=
  Click e ::
  List.map (SendKeys e)
    (warm_up ++ lines_each_ended (composed_lines CF message) ++ [submit]).

(** The world after the messages [msgs] have been sent, one after the
    other. *)
Definition sent (CF : config) (e : element) (msgs : list string) (w : world)
  : world :=
  extend w (flat_map (message_events CF e) msgs).

(** The host after the user's next lines have been read and [out] has been
    written. *)
Definition after_reading (h : Example.host) (rest : list string)
    (out : list Example.printed) : Example.host :=
  {| Example.dirs := Example.dirs h; Example.stdin := rest;
     Example.stdout := Example.stdout h ++ out |}.



Definition is_shown (p : Example.printed) : bool :=
  match p with Example.Shown _ => true | _ => false end.

(** A terminal at which the user types the given lines. *)
Definition sample_host (lines : list string) : Example.host :=
  {| Example.dirs := ∅; Example.stdin := lines; Example.stdout := [] |}.

(** The world before the bot is made. *)
Definition nothing_yet : world := {| driver := 0; spawned := 0; trace := [] |}.

(* ===================================================================== *)
(** ** Message extraction *)
(* ===================================================================== *)

Section Extraction.

Lemma unpack2_raises {A} (xs : list A) e :
  unpack2 xs = Raise e -> e = ValueError.
Proof.
  destruct xs as [|a [|b [|c l]]]; simpl; intros H; congruence.
Qed.

Lemma parse_pre_text_raises pre m e :
  parse_pre_text pre m = Raise e -> e = ValueError.
Proof.
  unfold parse_pre_text.
  destruct (unpack2 (Py.split "]" _)) as [[ts sd]|e1] eqn:E1; simpl.
  - destruct (unpack2 (Py.split ", " ts)) as [[t d]|e2] eqn:E2; simpl.
    + discriminate.
    + intros [= <-]. eauto using unpack2_raises.
  - intros [= <-]. eauto using unpack2_raises.
Qed.

(** Whether the parse raises does not depend on the record it fills. *)
Lemma parse_pre_text_raise_indep pre m m' e :
  parse_pre_text pre m = Raise e -> parse_pre_text pre m' = Raise e.
Proof.
  unfold parse_pre_text.
  destruct (unpack2 (Py.split "]" _)) as [[ts sd]|e1]; simpl; [|done].
  destruct (unpack2 (Py.split ", " ts)) as [[t d]|e2]; simpl; done.
Qed.

(** The [try] block never lets an exception out, and touches only the
    three metadata fields. *)
Lemma try_parse_pre_text_returns pre m :
  exists m', try_parse_pre_text pre m = Return m' /\
             md_id m' = md_id m /\ md_message m' = md_message m /\
             md_type m' = md_type m.
Proof.
  unfold try_parse_pre_text.
  destruct (parse_pre_text pre m) as [m'|e] eqn:E.
  - exists m'. split; [done|].
    unfold parse_pre_text in E.
    destruct (unpack2 (Py.split "]" _)) as [[ts sd]|e1]; simpl in E; [|done].
    destruct (unpack2 (Py.split ", " ts)) as [[t d]|e2]; simpl in E; [|done].
    injection E as <-. done.
  - apply parse_pre_text_raises in E as ->. simpl. eauto.
Qed.

(** When the parse raises, the record is left as it was. *)
Lemma try_parse_pre_text_failed pre m e :
  parse_pre_text pre m = Raise e -> try_parse_pre_text pre m = Return m.
Proof.
  intros E. unfold try_parse_pre_text. rewrite E.
  apply parse_pre_text_raises in E as ->. done.
Qed.

(** A turn of the loop always produces a record. *)
Lemma message_record_returns msg :
  exists r, message_record msg = Return r.
Proof.
  unfold message_record.
  destruct (find msg "div" ["copyable-text"]) as [ct|]; [|eauto].
  set (m0 := match find_parent msg "data-id" with
             | Some parent => set_id _ _ | None => _ end).
  destruct (nonempty _).
  - destruct (try_parse_pre_text_returns
                (get (snd ct) "data-pre-plain-text" "") m0) as (m' & -> & _).
    simpl. destruct (find ct "span" _); eauto.
  - simpl. destruct (find ct "span" _); eauto.
Qed.

Lemma message_record_record_of msg :
  message_record msg = Return (record_of msg).
Proof.
  unfold record_of. destruct (message_record_returns msg) as [r ->]. done.
Qed.

Lemma extract_loop_from (messages : list located) acc :
  fold_left
    (fun acc msg =>
       obind acc (fun structured_messages =>
       obind (message_record msg) (fun message_data =>
       Return (structured_messages ++ [message_data]))))
    messages (Return acc)
  = Return (acc ++ List.map record_of messages).
Proof.
  revert acc. induction messages as [|msg rest IH]; intros acc; simpl.
  - by rewrite app_nil_r.
  - rewrite message_record_record_of. simpl. rewrite IH.
    by rewrite <- app_assoc.
Qed.

Lemma extract_loop_map messages :
  extract_loop messages = Return (List.map record_of messages).
Proof. unfold extract_loop. by rewrite extract_loop_from. Qed.

End Extraction.

Section ExtractionFacts.

(** The fields of the record of a node, one by one. *)
Lemma record_of_type msg : md_type (record_of msg) = direction_of msg.
Proof.
  unfold record_of, message_record, direction_of.
  destruct (find msg "div" ["copyable-text"]) as [ct|]; simpl.
  2: { by destruct (find_parent msg "data-id"). }
  set (m0 := match find_parent msg "data-id" with
             | Some parent => set_id _ _ | None => _ end).
  assert (Hm0 : md_type m0 =
                if str_in "message-in" (get_class (snd msg))
                then "in" else "out")
    by (subst m0; by destruct (find_parent msg "data-id")).
  destruct (nonempty _).
  - destruct (try_parse_pre_text_returns
                (get (snd ct) "data-pre-plain-text" "") m0)
      as (m' & -> & _ & _ & Ht).
    simpl. destruct (find ct "span" _); simpl; congruence.
  - simpl. destruct (find ct "span" _); simpl; congruence.
Qed.

Lemma record_of_message msg : md_message (record_of msg) = text_of msg.
Proof.
  unfold record_of, message_record, text_of, message_span_of.
  destruct (find msg "div" ["copyable-text"]) as [ct|]; simpl.
  2: { by destruct (find_parent msg "data-id"). }
  set (m0 := match find_parent msg "data-id" with
             | Some parent => set_id _ _ | None => _ end).
  assert (Hm0 : md_message m0 = "")
    by (subst m0; by destruct (find_parent msg "data-id")).
  destruct (nonempty _).
  - destruct (try_parse_pre_text_returns
                (get (snd ct) "data-pre-plain-text" "") m0)
      as (m' & -> & _ & Hm & _).
    simpl. destruct (find ct "span" _); simpl; congruence.
  - simpl. destruct (find ct "span" _); simpl; congruence.
Qed.

Lemma record_of_id msg :
  md_id (record_of msg) =
  match find_parent msg "data-id" with
  | Some parent => get parent "data-id" ""
  | None => ""
  end.
Proof.
  unfold record_of, message_record.
  set (m0 := match find_parent msg "data-id" with
             | Some parent => set_id _ _ | None => _ end).
  assert (Hm0 : md_id m0 = match find_parent msg "data-id" with
                           | Some parent => get parent "data-id" ""
                           | None => ""
                           end)
    by (subst m0; by destruct (find_parent msg "data-id")).
  destruct (find msg "div" ["copyable-text"]) as [ct|]; simpl; [|done].
  destruct (nonempty _).
  - destruct (try_parse_pre_text_returns
                (get (snd ct) "data-pre-plain-text" "") m0)
      as (m' & -> & Hi & _ & _).
    simpl. destruct (find ct "span" _); simpl; congruence.
  - simpl. destruct (find ct "span" _); simpl; congruence.
Qed.

Lemma record_of_unusable_metadata msg :
  metadata_unusable msg = true ->
  md_time (record_of msg) = "" /\ md_timestamp (record_of msg) = "" /\
  md_sender (record_of msg) = "".
Proof.
  unfold metadata_unusable, record_of, message_record.
  set (m0 := match find_parent msg "data-id" with
             | Some parent => set_id _ _ | None => _ end).
  assert (Hm0 : md_time m0 = "" /\ md_timestamp m0 = "" /\ md_sender m0 = "")
    by (subst m0; by destruct (find_parent msg "data-id")).
  destruct (find msg "div" ["copyable-text"]) as [ct|]; simpl; [|done].
  destruct (nonempty _); simpl.
  - destruct (parse_pre_text _ (blank "")) as [?|e] eqn:E; [done|].
    intros _.
    rewrite (try_parse_pre_text_failed _ m0 e)
      by eauto using parse_pre_text_raise_indep.
    simpl. by destruct (find ct "span" _).
  - intros _. by destruct (find ct "span" _).
Qed.

(** Every node that [find_all] selects passes the filter. *)
Lemma message_nodes_are_messages doc :
  Forall (fun msg => is_message (snd msg) = true) (message_nodes doc).
Proof.
  unfold message_nodes, find_all. apply List.Forall_forall.
  intros msg Hin. apply List.filter_In in Hin as [_ H]. exact H.
Qed.

Lemma is_message_classes n :
  is_message n = true ->
  str_in "message-in" (get_class n) = false ->
  str_in "message-out" (get_class n) = true.
Proof.
  destruct n as [nm cls attr cs| |]; simpl; [|done..].
  intros H. apply andb_true_iff in H as [_ H]. clear nm attr cs.
  unfold str_in in *.
  induction cls as [|c cls IH]; cbn [existsb] in *; [done|].
  intros Hin. apply orb_false_iff in Hin as [Hc Hin].
  apply orb_true_iff in H as [H|H].
  - rewrite !orb_false_r in H.
    apply orb_true_iff in H as [H|H].
    + apply String.eqb_eq in H. subst c. by rewrite String.eqb_refl in Hc.
    + apply String.eqb_eq in H. subst c. by rewrite String.eqb_refl.
  - rewrite (IH H Hin). apply orb_true_r.
Qed.

Lemma record_of_defaults msg :
  is_message (snd msg) = true -> defaults_respected msg (record_of msg).
Proof.
  intros Hmsg. unfold defaults_respected.
  rewrite record_of_type, record_of_id. unfold direction_of, message_span_of.
  repeat split.
  - destruct (str_in "message-in" _); auto.
  - by destruct (str_in "message-in" _).
  - by destruct (str_in "message-in" _).
  - destruct (str_in "message-in" _) eqn:E; [done|].
    intros _. by apply is_message_classes.
  - by intros ->.
  - by apply record_of_unusable_metadata.
  - by apply record_of_unusable_metadata.
  - by apply record_of_unusable_metadata.
  - intros H. rewrite record_of_message. unfold text_of, message_span_of.
    by rewrite H.
Qed.

End ExtractionFacts.

Section DocumentOrder.

Variable p : node -> bool.

(** The selected nodes of a subtree are as many as a walk of the tree
    counts. *)
Lemma filter_subtree_length :
  forall (n : node) (anc : list node),
    length (List.filter (fun ln => p (snd ln)) (subtree anc n))
    = count_nodes p n.
Proof.
  fix IH 1. intros [nm cls attr cs| s | s] anc; simpl.
  - set (me := Tag nm cls attr cs). generalize (me :: anc) as anc'.
    assert (Hhead : forall k, length (if p me then (anc, me) :: k else k)
                              = (if p me then 1 else 0) + length k)
      by (intros k; by destruct (p me)).
    intros anc'. rewrite Hhead. f_equal. clear Hhead. subst me.
    induction cs as [|c cs IHcs]; simpl; [done|].
    rewrite List.filter_app, length_app, IH. f_equal. exact IHcs.
  - by destruct (p (NavigableString s)).
  - by destruct (p (Comment s)).
Qed.

Lemma filter_forest_length (l anc : list node) :
  length (List.filter (fun ln => p (snd ln)) (forest anc l))
  = count_forest p l.
Proof.
  unfold forest, count_forest.
  induction l as [|n l IH]; simpl; [done|].
  rewrite List.filter_app, length_app, filter_subtree_length.
  f_equal. exact IH.
Qed.

End DocumentOrder.

(** The message nodes of two pieces of a document, one after the other. *)
Lemma message_nodes_app (d1 d2 : list node) :
  message_nodes (d1 ++ d2) = message_nodes d1 ++ message_nodes d2.
Proof.
  unfold message_nodes, find_all, forest.
  by rewrite List.flat_map_app, List.filter_app.
Qed.

(** The records of two pieces of a document come one after the other. *)
Lemma extract_app (d1 d2 : list node) :
  exists rs1 rs2,
    extract d1 = Return rs1 /\ extract d2 = Return rs2 /\
    extract (d1 ++ d2) = Return (rs1 ++ rs2).
Proof.
  exists (List.map record_of (message_nodes d1)),
         (List.map record_of (message_nodes d2)).
  unfold extract. fold (message_nodes d1) (message_nodes d2)
                       (message_nodes (d1 ++ d2)).
  rewrite !extract_loop_map, message_nodes_app, List.map_app. done.
Qed.

(** C3: the metadata attribute ["[18:43, 15/1/2025] Dan Radeand: "] is
    parsed, through the steps of the [try] block (outer brackets stripped,
    cut at [']'], timestamp cut at [", "], sender stripped of [": "]), into
    time ["18:43"], date ["15/1/2025"] and sender ["Dan Radeand"]. *)
Theorem metadata_parse_example :
  forall type : string,
    Py.strip_chars "[]" "[18:43, 15/1/2025] Dan Radeand: "
      = "18:43, 15/1/2025] Dan Radeand: " /\
    Py.split "]" "18:43, 15/1/2025] Dan Radeand: "
      = ["18:43, 15/1/2025"; " Dan Radeand: "] /\
    Py.split ", " "18:43, 15/1/2025" = ["18:43"; "15/1/2025"] /\
    Py.strip_chars ": " " Dan Radeand: " = "Dan Radeand" /\
    try_parse_pre_text "[18:43, 15/1/2025] Dan Radeand: " (blank type)
      = Return {| md_id := ""; md_timestamp := "15/1/2025";
                  md_time := "18:43"; md_sender := "Dan Radeand";
                  md_message := ""; md_type := type |}.
Proof. intros type. repeat split. Qed.

(** C4: a message node whose metadata cannot be used still gets its record,
    with empty time, date and sender and with the direction and the text of
    the node, and the records of the message nodes before and after it are
    all produced, in their places. *)
Theorem malformed_metadata_keeps_block :
  forall (doc : list node) (before after : list located) (msg : located),
    message_nodes doc = before ++ msg :: after ->
    metadata_unusable msg = true ->
    exists r rs1 rs2,
      extract doc = Return (rs1 ++ r :: rs2) /\
      message_record msg = Return r /\
      md_time r = "" /\ md_timestamp r = "" /\ md_sender r = "" /\
      md_type r = direction_of msg /\ md_message r = text_of msg /\
      Forall2 (fun m r' => message_record m = Return r') before rs1 /\
      Forall2 (fun m r' => message_record m = Return r') after rs2.
Proof.
  intros doc before after msg Hdoc Hbad.
  exists (record_of msg), (List.map record_of before),
         (List.map record_of after).
  destruct (record_of_unusable_metadata msg Hbad) as (Ht & Hd & Hs).
  unfold extract. fold (message_nodes doc).
  rewrite Hdoc, extract_loop_map, List.map_app. simpl.
  repeat split; auto using message_record_record_of, record_of_type,
                  record_of_message.
  - apply Forall2_fmap_r, Forall_Forall2_diag, List.Forall_forall.
    intros m _. apply message_record_record_of.
  - apply Forall2_fmap_r, Forall_Forall2_diag, List.Forall_forall.
    intros m _. apply message_record_record_of.
Qed.

(** C8: every record that extraction builds has a direction, ["in"] or
    ["out"], that follows the classes of its node, and the empty string in
    every field whose extraction fails: the id without an ancestor carrying
    [data-id], time, date and sender without usable metadata, the text
    without a selectable-text span. *)
Theorem record_fields_never_missing :
  forall doc : list node,
    exists rs,
      extract doc = Return rs /\
      Forall2 defaults_respected (message_nodes doc) rs.
Proof.
  intros doc. exists (List.map record_of (message_nodes doc)). split.
  - unfold extract. fold (message_nodes doc). apply extract_loop_map.
  - apply Forall2_fmap_r, Forall_Forall2_diag.
    eapply List.Forall_impl; [|apply message_nodes_are_messages].
    intros msg Hmsg. by apply record_of_defaults.
Qed.

(** C9: a document with N message nodes yields exactly N records, the
    i-th record being the one built from the i-th message node in document
    order. *)
Theorem extraction_preserves_order :
  forall doc : list node,
    exists rs,
      extract doc = Return rs /\
      length rs = count_forest is_message doc /\
      Forall2 (fun msg r => message_record msg = Return r)
              (message_nodes doc) rs.
Proof.
  intros doc. exists (List.map record_of (message_nodes doc)).
  split; [|split].
  - unfold extract. fold (message_nodes doc). apply extract_loop_map.
  - rewrite length_map. unfold message_nodes, find_all.
    apply (filter_forest_length is_message).
  - apply Forall2_fmap_r, Forall_Forall2_diag, List.Forall_forall.
    intros m _. apply message_record_record_of.
Qed.

(* ===================================================================== *)
(** ** Sessions: lookup, the authentication check and its loop *)
(* ===================================================================== *)

Section Session.

Variable B : browser.
Variable CF : config.

(** The [try] body of [find_element], as the chain of lookups it is. *)
Lemma find_element_unfold (element : string) (w : world) :
  find_element B CF element w =
  (Return
     match read_map B (trace w) (map_file CF) with
     | Return mp =>
         match mp !! element with
         | Some entry =>
             match entry !! "type", entry !! "value" with
             | Some by_, Some value =>
                 match locate B (trace w) (driver w) by_ value with
                 | Return e => VElem e
                 | Raise _ => VBool false
                 end
             | _, _ => VBool false
             end
         | None => VBool false
         end
     | Raise _ => VBool false
     end, w).
Proof.
  unfold find_element, try_except, bind, getmap, subscript,
    driver_find_element, ret, raise.
  destruct (read_map B (trace w) (map_file CF)) as [mp|x]; [|done].
  destruct (mp !! element) as [entry|]; [|done].
  destruct (entry !! "type") as [by_|]; [|done].
  destruct (entry !! "value") as [value|]; [|done].
  by destruct (locate B (trace w) (driver w) by_ value).
Qed.

(** A lookup leaves the world as it is. *)
Lemma find_element_world (element : string) (w : world) :
  snd (find_element B CF element w) = w.
Proof. by rewrite find_element_unfold. Qed.

Lemma find_element_cases (element : string) (w : world) :
  find_element B CF element w = (Return (VBool false), w) \/
  exists e, find_element B CF element w = (Return (VElem e), w).
Proof.
  rewrite find_element_unfold.
  destruct (read_map _ _ _) as [mp|]; [|by left].
  destruct (mp !! element) as [entry|]; [|by left].
  destruct (entry !! "type"); [|by left].
  destruct (entry !! "value"); [|by left].
  destruct (locate _ _ _ _ _); [right; eauto|by left].
Qed.

Lemma find_element_found (element : string) (w : world) :
  find_element B CF element w
  = (fst (find_element B CF element w), w).
Proof. by rewrite find_element_unfold. Qed.

(** The check reads the page and changes nothing. *)
Lemma check_auth_world (w : world) : snd (check_auth B CF w) = w.
Proof.
  unfold check_auth, bind.
  destruct (find_element_cases "logged" w) as [->|[e ->]]; simpl; [|done].
  destruct (find_element_cases "home" w) as [->|[e ->]]; done.
Qed.

Lemma check_auth_fst (w : world) :
  check_auth B CF w = (fst (check_auth B CF w), w).
Proof.
  rewrite <- (check_auth_world w) at 3. by destruct (check_auth B CF w).
Qed.

(** Without faults an action is just recorded. *)
Lemma act_ok (ev : event) (w : world) :
  no_faults B -> act B ev w = (Return tt, extend w [ev]).
Proof. intros HB. unfold act. by rewrite HB. Qed.

(** Without faults a reopen cycle goes through. *)
Lemma reopen_ok (w : world) :
  no_faults B -> reopen B CF w = (Return tt, reopened CF w).
Proof.
  intros HB.
  unfold reopen, bind, self_driver, opendriver, set_self_driver, sleep, emit.
  rewrite !act_ok by done. simpl.
  unfold reopened, reopen_events, extend. simpl. f_equal. f_equal.
  by rewrite <- !app_assoc.
Qed.

Lemma drivers_started_reopened (w : world) :
  drivers_started (trace (reopened CF w)) = S (drivers_started (trace w)).
Proof.
  unfold drivers_started, reopened. simpl.
  rewrite List.filter_app, length_app. simpl. lia.
Qed.

Lemma drivers_started_after_cycles (n : nat) (w : world) :
  drivers_started (trace (after_cycles CF n w))
  = drivers_started (trace w) + n.
Proof.
  revert w. induction n as [|n IH]; intros w; simpl; [lia|].
  rewrite IH, drivers_started_reopened. lia.
Qed.

(** The loop after [n] failed checks and a successful one. *)
Lemma authenticate_after (n : nat) :
  forall w : world,
    no_faults B ->
    (forall k, k < n ->
       fst (check_auth B CF (after_cycles CF k w)) = Return false) ->
    fst (check_auth B CF (after_cycles CF n w)) = Return true ->
    forall fuel, n < fuel ->
      authenticate B CF fuel w = Some (Return true, after_cycles CF n w).
Proof.
  induction n as [|n IH]; intros w HB Hfalse Htrue fuel Hfuel.
  - destruct fuel as [|fuel]; [lia|]. simpl in *.
    rewrite check_auth_fst, Htrue. done.
  - destruct fuel as [|fuel]; [lia|]. simpl.
    pose proof (Hfalse 0 ltac:(lia)) as H0. simpl in H0.
    rewrite check_auth_fst, H0, reopen_ok by done.
    apply IH; [done| |done|lia].
    intros k Hk. apply (Hfalse (S k)). lia.
Qed.

(** Before the successful check the loop has not returned. *)
Lemma authenticate_not_before (n : nat) :
  forall w : world,
    no_faults B ->
    (forall k, k < n ->
       fst (check_auth B CF (after_cycles CF k w)) = Return false) ->
    forall fuel, fuel <= n -> authenticate B CF fuel w = None.
Proof.
  induction n as [|n IH]; intros w HB Hfalse fuel Hfuel.
  - by replace fuel with 0 by lia.
  - destruct fuel as [|fuel]; [done|]. simpl.
    pose proof (Hfalse 0 ltac:(lia)) as H0. simpl in H0.
    rewrite check_auth_fst, H0, reopen_ok by done.
    apply IH; [done| |lia].
    intros k Hk. apply (Hfalse (S k)). lia.
Qed.

(** With a check that never succeeds the loop never ends: there is no cap
    on the number of cycles. *)
Lemma authenticate_has_no_cap (w : world) :
  no_faults B ->
  (forall k, fst (check_auth B CF (after_cycles CF k w)) = Return false) ->
  forall fuel, authenticate B CF fuel w = None.
Proof.
  intros HB Hfalse fuel.
  apply (authenticate_not_before fuel); auto.
Qed.

End Session.

(** C5: [check_auth] returns [True] when the logged-in marker is found,
    otherwise [False] when the pre-login marker is found, and otherwise
    raises the exception ["Whatsapp Web not found!"], which is no boolean
    result; the world is left as it was. *)
Theorem check_auth_three_way :
  forall (B : browser) (CF : config) (w : world),
    check_auth B CF w =
    (if found B CF "logged" w then Return true
     else if found B CF "home" w then Return false
     else Raise (Exception "Whatsapp Web not found!"), w).
Proof.
  intros B CF w. unfold check_auth, found, bind.
  destruct (find_element_cases B CF "logged" w) as [->|[e ->]]; simpl;
    [|done].
  destruct (find_element_cases B CF "home" w) as [->|[e ->]]; done.
Qed.

(** C6: [find_element] never raises and leaves the world untouched: it
    returns the located element when the mapping file is read, holds the
    name with its type and value, and the driver finds the element; it
    returns [False] when the file cannot be read, when the name or one of
    its two keys is missing, and when the driver faults. *)
Theorem find_element_never_raises :
  forall (B : browser) (CF : config) (element : string) (w : world),
    (exists v, find_element B CF element w = (Return v, w) /\
               (v = VBool false \/ exists e, v = VElem e)) /\
    (forall mp entry by_ value e,
       read_map B (trace w) (map_file CF) = Return mp ->
       mp !! element = Some entry ->
       entry !! "type" = Some by_ -> entry !! "value" = Some value ->
       locate B (trace w) (driver w) by_ value = Return e ->
       find_element B CF element w = (Return (VElem e), w)) /\
    (forall x,
       read_map B (trace w) (map_file CF) = Raise x ->
       find_element B CF element w = (Return (VBool false), w)) /\
    (forall mp,
       read_map B (trace w) (map_file CF) = Return mp ->
       mp !! element = None ->
       find_element B CF element w = (Return (VBool false), w)) /\
    (forall mp entry,
       read_map B (trace w) (map_file CF) = Return mp ->
       mp !! element = Some entry ->
       entry !! "type" = None \/ entry !! "value" = None ->
       find_element B CF element w = (Return (VBool false), w)) /\
    (forall mp entry by_ value x,
       read_map B (trace w) (map_file CF) = Return mp ->
       mp !! element = Some entry ->
       entry !! "type" = Some by_ -> entry !! "value" = Some value ->
       locate B (trace w) (driver w) by_ value = Raise x ->
       find_element B CF element w = (Return (VBool false), w)).
Proof.
  intros B CF element w. repeat split.
  - destruct (find_element_cases B CF element w) as [H|[e H]];
      rewrite H; eauto.
  - intros mp entry by_ value e Hm He Ht Hv Hl.
    rewrite find_element_unfold, Hm, He, Ht, Hv, Hl. done.
  - intros x Hm. rewrite find_element_unfold, Hm. done.
  - intros mp Hm He. rewrite find_element_unfold, Hm, He. done.
  - intros mp entry Hm He [Ht|Hv];
      rewrite find_element_unfold, Hm, He.
    + by rewrite Ht.
    + rewrite Hv. by destruct (entry !! "type").
  - intros mp entry by_ value x Hm He Ht Hv Hl.
    rewrite find_element_unfold, Hm, He, Ht, Hv, Hl. done.
Qed.

(** C7: when the check fails [n] times and then succeeds, and the driver
    does not fault, [authenticate] returns [True] at check [n + 1], after
    exactly [n] reopen cycles (each one: quit, a driver started without the
    headless option, the target URL, the authentication wait), and not
    before; [n] is arbitrary, the loop has no cap of its own. *)
Theorem authenticate_reopens_until_logged_in :
  forall (B : browser) (CF : config) (n : nat) (w : world),
    no_faults B ->
    (forall k, k < n ->
       fst (check_auth B CF (after_cycles CF k w)) = Return false) ->
    fst (check_auth B CF (after_cycles CF n w)) = Return true ->
    (forall fuel, n < fuel ->
       authenticate B CF fuel w = Some (Return true, after_cycles CF n w)) /\
    (forall fuel, fuel <= n -> authenticate B CF fuel w = None) /\
    drivers_started (trace (after_cycles CF n w))
      = drivers_started (trace w) + n.
Proof.
  intros B CF n w HB Hfalse Htrue. repeat split.
  - intros fuel Hfuel. by apply authenticate_after.
  - intros fuel Hfuel. by apply (authenticate_not_before B CF n).
  - apply drivers_started_after_cycles.
Qed.

(* ===================================================================== *)
(** ** Typing into an element *)
(* ===================================================================== *)

Section Typing.

Variable B : browser.
Variable CF : config.

Lemma extend_nil (w : world) : extend w [] = w.
Proof. destruct w. unfold extend. simpl. by rewrite app_nil_r. Qed.

Lemma extend_extend (w : world) (evs1 evs2 : list event) :
  extend (extend w evs1) evs2 = extend w (evs1 ++ evs2).
Proof. unfold extend. simpl. by rewrite app_assoc. Qed.

(** An action that returns has been recorded; one that raises has left
    the world alone. *)
Lemma act_inv (ev : event) (w w' : world) (r : outcome unit) :
  act B ev w = (r, w') ->
  (r = Return tt /\ fault B (trace w) ev = None /\ w' = extend w [ev]) \/
  (exists x, r = Raise x /\ fault B (trace w) ev = Some x /\ w' = w).
Proof.
  unfold act. destruct (fault B (trace w) ev) as [x|]; intros [= <- <-].
  - right. eauto.
  - left. eauto.
Qed.

(** A step that returns hands its result and its world to the rest. *)
Lemma bind_ok {A A'} (c : M A) (k : A -> M A') (w w' : world) (a : A) :
  c w = (Return a, w') -> bind c k w = k a w'.
Proof. intros H. unfold bind. by rewrite H. Qed.

Lemma click_ok (e : element) (w : world) :
  no_faults B -> click B (VElem e) w = (Return tt, extend w [Click e]).
Proof. intros HB. unfold click. simpl. by apply act_ok. Qed.

Lemma send_keys_ok (e : element) (keys : list key) (w : world) :
  no_faults B ->
  send_keys B (VElem e) keys w = (Return tt, extend w [SendKeys e keys]).
Proof. intros HB. unfold send_keys. simpl. by apply act_ok. Qed.

(** A loop of [send_keys] that comes to its end has sent every item. *)
Lemma for_each_send_keys_inv {A} (f : A -> list key) (e : element) :
  forall (xs : list A) (w w' : world) (u : unit),
    for_each xs (fun x => send_keys B (VElem e) (f x)) w = (Return u, w') ->
    w' = extend w (List.map (fun x => SendKeys e (f x)) xs).
Proof.
  induction xs as [|x xs IH]; intros w w' u; simpl.
  - intros [= <-]. by rewrite extend_nil.
  - unfold bind at 1. unfold send_keys at 1. simpl. unfold bind at 1. simpl.
    destruct (act B (SendKeys e (f x)) w) as [[[]|y] w1] eqn:E; [|done].
    apply act_inv in E as [(_ & _ & ->)|(y & ? & _)]; [|done].
    intros H. apply IH in H as ->. by rewrite extend_extend.
Qed.

(** Without faults the loop comes to its end. *)
Lemma for_each_send_keys_ok {A} (f : A -> list key) (e : element) :
  no_faults B ->
  forall (xs : list A) (w : world),
    for_each xs (fun x => send_keys B (VElem e) (f x)) w
    = (Return tt, extend w (List.map (fun x => SendKeys e (f x)) xs)).
Proof.
  intros HB. induction xs as [|x xs IH]; intros w; simpl.
  - by rewrite extend_nil.
  - unfold bind at 1. unfold send_keys at 1. simpl. unfold bind at 1. simpl.
    rewrite act_ok by done. rewrite IH. by rewrite extend_extend.
Qed.

(** The loop over the lines of [send_messages]. *)
Lemma for_each_line_ok (e : element) :
  no_faults B ->
  forall (lines : list string) (w : world),
    for_each lines
      (fun text =>
         for_each (Py.chars text)
           (fun letter => send_keys B (VElem e) [Char letter]) ;;;
         send_keys B (VElem e) [SHIFT; ENTER]) w
    = (Return tt,
       extend w (List.map (SendKeys e) (lines_each_ended lines))).
Proof.
  intros HB. induction lines as [|text lines IH]; intros w; simpl.
  - by rewrite extend_nil.
  - unfold bind at 1. unfold bind at 1.
    rewrite (for_each_send_keys_ok (fun c => [Char c])) by done.
    unfold send_keys at 1. simpl. unfold bind at 1. simpl.
    rewrite act_ok by done. rewrite IH, !extend_extend.
    f_equal. f_equal. unfold keystrokes.
    rewrite !List.map_app, List.map_map, <- !app_assoc. done.
Qed.

End Typing.

Section Lines.

Lemma append_assoc (a b c : string) : (a +:+ b) +:+ c = a +:+ (b +:+ c).
Proof.
  induction a as [|x a IH]; [done|].
  change (String x ((a +:+ b) +:+ c) = String x (a +:+ (b +:+ c))).
  by rewrite IH.
Qed.

Lemma prefix_nil (s : string) : String.prefix "" s = true.
Proof. by destruct s. Qed.

(** One step of cutting at newlines. *)
Lemma split_from_newline_step (cur : string) (c : ascii) (s : string) :
  Py.split_from nl 0 cur (String c s)
  = if Ascii.eqb c LF then cur :: Py.split_from nl 0 "" s
    else Py.split_from nl 0 (cur +:+ String c "") s.
Proof.
  cbn [Py.split_from]. unfold nl at 1. cbn [String.prefix].
  destruct (ascii_dec LF c) as [E|E].
  - subst c. by rewrite prefix_nil, Ascii.eqb_refl.
  - destruct (Ascii.eqb_spec c LF); [congruence|done].
Qed.

(** Cutting at newlines what is glued with a newline. *)
Lemma split_from_newline (a b cur : string) :
  Py.split_from nl 0 cur (a +:+ nl +:+ b)
  = Py.split_from nl 0 cur a ++ Py.split nl b.
Proof.
  revert cur. induction a as [|x a IH]; intros cur.
  - change ("" +:+ nl +:+ b) with (String LF b).
    by rewrite split_from_newline_step, Ascii.eqb_refl.
  - change (String x a +:+ nl +:+ b) with (String x (a +:+ nl +:+ b)).
    rewrite !split_from_newline_step.
    destruct (Ascii.eqb x LF); by rewrite IH.
Qed.

Lemma split_newline_append (a b : string) :
  Py.split nl (a +:+ nl +:+ b) = Py.split nl a ++ Py.split nl b.
Proof. apply split_from_newline. Qed.

(** The signature makes the first line or lines, the message the rest. *)
Lemma composed_lines_signature (CF : config) (message : string) :
  composed_lines CF message
  = Py.split nl (" *" +:+ bot_name CF +:+ "* :") ++ Py.split nl message.
Proof.
  unfold composed_lines. rewrite <- split_newline_append.
  f_equal. by rewrite <- !append_assoc.
Qed.

Lemma keystrokes_not_special (text : string) :
  List.filter is_soft_newline (keystrokes text) = [] /\
  List.filter is_submit (keystrokes text) = [].
Proof.
  unfold keystrokes. induction (Py.chars text) as [|c l [IH1 IH2]]; done.
Qed.

(** As many soft newlines as lines, and no submit key among them. *)
Lemma lines_each_ended_counts (lines : list string) :
  length (List.filter is_soft_newline (lines_each_ended lines))
    = length lines /\
  List.filter is_submit (lines_each_ended lines) = [].
Proof.
  unfold lines_each_ended.
  induction lines as [|text lines [IH1 IH2]]; [done|]. simpl.
  destruct (keystrokes_not_special text) as [K1 K2].
  rewrite <- !app_assoc, !List.filter_app, K1, K2, IH2. simpl.
  split; [by rewrite IH1|done].
Qed.

End Lines.

(* ===================================================================== *)
(** ** Composing and sending *)
(* ===================================================================== *)

(** C2, as stated, fails: for the text of the two lines ["a"] and ["b"]
    the composer does not send the lines separated by soft newlines; a soft
    newline follows the last line as well. *)
Lemma send_messages_not_as_specified :
  ~ composed_as_specified sample_browser sample_config
      ("a" +:+ nl +:+ "b") sample_world.
Proof.
  intros H. specialize (H 3 eq_refl). vm_compute in H. discriminate H.
Qed.

(** C2, amended: when the message input is found and the driver does not
    fault, [send_messages] clicks the input, sends the warm-up, then types
    the signed text line by line, one key event per character and one soft
    newline after every line, the last one included, and ends with the
    submit key; the signature comes first, the soft newlines are as many as
    the lines, and the submit key after the lines is the only one. *)
Theorem send_messages_ends_every_line :
  forall (B : browser) (CF : config) (message : string) (w : world)
         (e : element),
    no_faults B ->
    fst (find_element B CF "message_input" w) = Return (VElem e) ->
    send_messages B CF message w
      = (Return tt,
         extend w (Click e ::
           List.map (SendKeys e)
             (warm_up ++ lines_each_ended (composed_lines CF message)
                      ++ [submit]))) /\
    composed_lines CF message
      = Py.split nl (" *" +:+ bot_name CF +:+ "* :") ++ Py.split nl message /\
    length (List.filter is_soft_newline
              (lines_each_ended (composed_lines CF message)))
      = length (composed_lines CF message) /\
    List.filter is_submit
      (lines_each_ended (composed_lines CF message) ++ [submit]) = [submit].
Proof.
  intros B CF message w e HB Hfound.
  destruct (lines_each_ended_counts (composed_lines CF message)) as [K1 K2].
  split; [|split; [apply composed_lines_signature|split; [exact K1|]]].
  - unfold send_messages.
    erewrite bind_ok by (rewrite find_element_found, Hfound; reflexivity).
    erewrite bind_ok by (by apply click_ok).
    erewrite bind_ok
      by (by apply (for_each_send_keys_ok B (fun c => [Char c]))).
    erewrite bind_ok by (by apply send_keys_ok).
    fold (composed_lines CF message).
    erewrite bind_ok by (by apply for_each_line_ok).
    rewrite send_keys_ok by done. rewrite !extend_extend.
    f_equal. f_equal. unfold warm_up, keystrokes, submit.
    rewrite !List.map_app, List.map_map, <- !app_assoc. done.
  - by rewrite List.filter_app, K2.
Qed.

Lemma send_messages_ends_every_line_witness :
  send_messages sample_browser sample_config ("a" +:+ nl +:+ "b") sample_world
    = (Return tt,
       extend sample_world (Click 3 ::
         List.map (SendKeys 3)
           (warm_up
            ++ lines_each_ended
                 (composed_lines sample_config ("a" +:+ nl +:+ "b"))
            ++ [submit]))) /\
  length (composed_lines sample_config ("a" +:+ nl +:+ "b")) = 3.
Proof.
  split; [|reflexivity].
  apply (send_messages_ends_every_line sample_browser sample_config
           ("a" +:+ nl +:+ "b") sample_world 3).
  - intros tr ev. reflexivity.
  - reflexivity.
Defined.

Example send_messages_sample_soft_newlines :
  length (List.filter is_soft_newline
            (lines_each_ended
               (composed_lines sample_config ("a" +:+ nl +:+ "b")))) = 3 /\
  length (List.filter is_soft_newline
            (lines_separated
               (composed_lines sample_config ("a" +:+ nl +:+ "b")))) = 2.
Proof. split; reflexivity. Qed.

(* ===================================================================== *)
(** ** Opening a contact *)
(* ===================================================================== *)

(** C10: when the search input is not found, [open_contact] does not
    return [False]: the click on the [False] that [find_element] handed back
    raises an attribute error, with nothing done.  A [False] result comes
    only after the search input was found, clicked and cleared, the name
    typed and the wait made, from a contact entry that is not found or whose
    click faults. *)
Theorem open_contact_needs_search_input :
  forall (B : browser) (CF : config) (contact : string) (w : world),
    (found B CF "search" w = false ->
     open_contact B CF contact w
       = (Raise (AttributeError "bool" "click"), w)) /\
    (forall w',
       open_contact B CF contact w = (Return false, w') ->
       exists e,
         find_element B CF "search" w = (Return (VElem e), w) /\
         w' = extend w
                (Click e :: SendKeys e [CONTROL; Char "A"%char]
                 :: List.map (fun c => SendKeys e [Char c]) (Py.chars contact)
                 ++ [Sleep (threshold_default CF)]) /\
         match locate_in B (trace w') e "xpath"
                 ("//span[@title = '" +:+ contact +:+ "']") with
         | Raise _ => True
         | Return first_contact =>
             is_Some (fault B (trace w') (Click first_contact))
         end).
Proof.
  intros B CF contact w. split.
  - unfold found. intros Hnot.
    destruct (find_element_cases B CF "search" w) as [H|[e H]];
      rewrite H in Hnot; [|done].
    unfold open_contact. by erewrite bind_ok by exact H.
  - intros w'. unfold open_contact.
    destruct (find_element_cases B CF "search" w) as [H|[e H]].
    { by erewrite bind_ok by exact H. }
    erewrite bind_ok by exact H.
    unfold bind at 1. unfold click at 1. simpl. unfold bind at 1. simpl.
    destruct (act B (Click e) w) as [[[]|x] w1] eqn:E1; [|done].
    apply act_inv in E1 as [(_ & _ & ->)|(x & ? & _)]; [|done].
    unfold bind at 1. unfold send_keys at 1. simpl. unfold bind at 1. simpl.
    destruct (act B (SendKeys e _) _) as [[[]|x] w2] eqn:E2; [|done].
    apply act_inv in E2 as [(_ & _ & ->)|(x & ? & _)]; [|done].
    unfold bind at 1.
    destruct (for_each _ _ _) as [[[]|x] w3] eqn:E3; [|done].
    apply (for_each_send_keys_inv B (fun c => [Char c])) in E3 as ->.
    unfold bind at 1. unfold sleep, emit.
    rewrite !extend_extend.
    set (w4 := extend w _).
    assert (Hw4 : w4 = extend w
                (Click e :: SendKeys e [CONTROL; Char "A"%char]
                 :: List.map (fun c => SendKeys e [Char c]) (Py.chars contact)
                 ++ [Sleep (threshold_default CF)])).
    { subst w4. f_equal; simpl; by rewrite <- ?app_assoc. }
    clearbody w4.
    unfold try_except, bind, element_find_element, ret. simpl.
    intros Hres. exists e. split; [done|]. rewrite <- Hw4. clear Hw4.
    destruct (locate_in B (trace w4) e "xpath" _) as [fc|x] eqn:El.
    + unfold click in Hres. simpl in Hres. unfold bind in Hres.
      simpl in Hres.
      destruct (act B (Click fc) w4) as [[[]|x] w5] eqn:E5; [done|].
      apply act_inv in E5 as [(? & _ & _)|(y & _ & Hf & ->)]; [done|].
      injection Hres as <-. split; [done|]. rewrite El, Hf. eauto.
    + injection Hres as <-. split; [done|]. by rewrite El.
Qed.

Lemma open_contact_needs_search_input_witness :
  open_contact sample_browser sample_config "Dan" sample_world
    = (Raise (AttributeError "bool" "click"), sample_world).
Proof.
  apply (open_contact_needs_search_input sample_browser sample_config
           "Dan" sample_world).
  reflexivity.
Defined.

(* ===================================================================== *)
(** ** Reading the message block *)
(* ===================================================================== *)

(** What [message_block] hands back: the empty string when the block is
    not found, and [None], after printing the records, when it is. *)
Lemma message_block_result (B : browser) (CF : config) (w : world) :
  (found B CF "message_block" w = false ->
   message_block B CF w = (Return (VStr ""), w)) /\
  (forall e doc,
     find_element B CF "message_block" w = (Return (VElem e), w) ->
     inner_html B (trace w) e = Return doc ->
     message_block B CF w
       = (Return VNone,
          extend w [Print (List.map record_of (message_nodes doc))])).
Proof.
  split.
  - unfold found. intros Hnot.
    destruct (find_element_cases B CF "message_block" w) as [H|[e H]];
      rewrite H in Hnot; [|done].
    unfold message_block. by erewrite bind_ok by exact H.
  - intros e doc H Hdoc. unfold message_block.
    erewrite bind_ok by exact H. simpl.
    unfold soup_of_inner_html. simpl.
    unfold bind, ret, lift, emit. rewrite Hdoc.
    unfold extract. fold (message_nodes doc). by rewrite extract_loop_map.
Qed.

(** C1, at a block that is found: [message_block] prints the three records
    of the sample conversation and returns [None], not the records. *)
Theorem message_block_returns_none :
  message_block sample_browser sample_config sample_world
    = (Return VNone, extend sample_world [Print sample_records]) /\
  extract sample_block = Return sample_records /\
  fst (message_block sample_browser sample_config sample_world)
    <> Return (VList sample_records).
Proof. repeat split. discriminate. Qed.

Example extract_sample_block : extract sample_block = Return sample_records.
Proof. reflexivity. Qed.

(* ===================================================================== *)
(** ** The statements at the sample data *)
(* ===================================================================== *)

Lemma malformed_metadata_keeps_block_witness :
  exists r rs1 rs2,
    extract sample_block = Return (rs1 ++ r :: rs2) /\
    message_record ([], sample_out) = Return r /\
    md_time r = "" /\ md_timestamp r = "" /\ md_sender r = "" /\
    md_type r = direction_of ([], sample_out) /\
    md_message r = text_of ([], sample_out) /\
    Forall2 (fun m r' => message_record m = Return r')
            [([sample_row], sample_in)] rs1 /\
    Forall2 (fun m r' => message_record m = Return r')
            [([], sample_last)] rs2.
Proof.
  apply (malformed_metadata_keeps_block sample_block
           [([sample_row], sample_in)] [([], sample_last)] ([], sample_out)).
  - reflexivity.
  - reflexivity.
Defined.

Lemma find_element_never_raises_witness :
  find_element sample_browser sample_config "message_input" sample_world
    = (Return (VElem 3), sample_world).
Proof.
  destruct (find_element_never_raises sample_browser sample_config
              "message_input" sample_world) as (_ & Hok & _).
  apply (Hok sample_mapping (selector "//input") "xpath" "//input" 3);
    reflexivity.
Defined.

Lemma authenticate_reopens_until_logged_in_witness :
  authenticate sample_browser sample_config 3 sample_world
    = Some (Return true, after_cycles sample_config 2 sample_world) /\
  authenticate sample_browser sample_config 2 sample_world = None /\
  drivers_started (trace (after_cycles sample_config 2 sample_world)) = 2.
Proof.
  destruct (authenticate_reopens_until_logged_in sample_browser sample_config
              2 sample_world) as (Hdone & Hnot & Hcount).
  - intros tr ev. reflexivity.
  - intros k Hk. destruct k as [|[|k]]; [reflexivity|reflexivity|lia].
  - reflexivity.
  - split; [apply Hdone; lia|]. split; [apply Hnot; lia|exact Hcount].
Defined.

Example check_auth_sample_before_login :
  check_auth sample_browser sample_config sample_world
    = (Return false, sample_world).
Proof. reflexivity. Qed.

Example check_auth_sample_after_login :
  fst (check_auth sample_browser sample_config
         (after_cycles sample_config 2 sample_world)) = Return true.
Proof. reflexivity. Qed.

Example check_auth_lost :
  check_auth lost_browser sample_config sample_world
    = (Raise (Exception "Whatsapp Web not found!"), sample_world).
Proof. reflexivity. Qed.

Example find_element_lost :
  find_element lost_browser sample_config "logged" sample_world
    = (Return (VBool false), sample_world).
Proof. reflexivity. Qed.

Example find_element_unknown_name :
  find_element sample_browser sample_config "no_such_name" sample_world
    = (Return (VBool false), sample_world).
Proof. reflexivity. Qed.

Example message_block_lost :
  message_block lost_browser sample_config sample_world
    = (Return (VStr ""), sample_world).
Proof. reflexivity. Qed.

Example split_newline :
  Py.split nl ("a" +:+ nl +:+ "b") = ["a"; "b"].
Proof. reflexivity. Qed.

Example split_trailing : Py.split "]" "x]" = ["x"; ""].
Proof. reflexivity. Qed.

Example split_two_char_sep :
  Py.split ", " "18:43, 15/1/2025" = ["18:43"; "15/1/2025"].
Proof. reflexivity. Qed.

Example strip_brackets :
  Py.strip_chars "[]" "[18:43] Dan: " = "18:43] Dan: ".
Proof. reflexivity. Qed.

Example parse_without_brackets_fails :
  parse_pre_text "18:43, 15/1/2025 Dan: " (blank "in") = Raise ValueError.
Proof. reflexivity. Qed.

Example parse_without_comma_fails :
  parse_pre_text "[18:43 15/1/2025] Dan: " (blank "in") = Raise ValueError.
Proof. reflexivity. Qed.

(* ===================================================================== *)
(** ** More on the authentication loop *)
(* ===================================================================== *)

Section Reopening.

Variable B : browser.
Variable CF : config.

(** Whatever the driver answers, a reopen cycle adds reopen events only. *)
Lemma reopen_trace (w w' : world) (r : outcome unit) :
  reopen B CF w = (r, w') ->
  exists evs, trace w' = trace w ++ evs /\ Forall (is_reopen_event CF) evs.
Proof.
  unfold reopen, bind, self_driver, opendriver, set_self_driver, sleep, emit,
    act, extend. simpl.
  destruct (fault B (trace w) (Quit (driver w))) as [x|]; simpl.
  { intros [= <- <-]. exists []. by rewrite app_nil_r. }
  destruct (fault B _ (Firefox _ _ _)) as [x|]; simpl.
  { intros [= <- <-]. eexists. split; [done|]. by repeat constructor. }
  destruct (fault B _ (Get _ _)) as [x|]; simpl.
  { intros [= <- <-]. eexists. split; [by rewrite <- app_assoc|].
    by repeat constructor. }
  intros [= <- <-]. eexists. split; [by rewrite <- !app_assoc|].
  by repeat constructor.
Qed.

Lemma authenticate_trace (fuel : nat) :
  forall (w w' : world) (r : outcome bool),
    authenticate B CF fuel w = Some (r, w') ->
    r <> Return false /\
    exists evs, trace w' = trace w ++ evs /\ Forall (is_reopen_event CF) evs.
Proof.
  induction fuel as [|fuel IH]; intros w w' r; simpl; [done|].
  rewrite check_auth_fst.
  destruct (fst (check_auth B CF w)) as [[|]|x].
  - intros [= <- <-]. split; [done|]. exists []. by rewrite app_nil_r.
  - destruct (reopen B CF w) as [[[]|x] w1] eqn:E;
      apply reopen_trace in E as (evs1 & E1 & F1).
    + intros H. apply IH in H as (Hr & evs2 & E2 & F2). split; [done|].
      exists (evs1 ++ evs2). rewrite E2, E1, app_assoc.
      split; [done|]. by apply Forall_app.
    + intros [= <- <-]. split; [done|]. eauto.
  - intros [= <- <-]. split; [done|]. exists []. by rewrite app_nil_r.
Qed.

(** The loop after [n] failed checks and one that raises. *)
Lemma authenticate_raises_after (n : nat) :
  forall (w : world) (x : exn),
    no_faults B ->
    (forall k, k < n ->
       fst (check_auth B CF (after_cycles CF k w)) = Return false) ->
    fst (check_auth B CF (after_cycles CF n w)) = Raise x ->
    forall fuel, n < fuel ->
      authenticate B CF fuel w = Some (Raise x, after_cycles CF n w).
Proof.
  induction n as [|n IH]; intros w x HB Hfalse Hraise fuel Hfuel.
  - destruct fuel as [|fuel]; [lia|]. simpl in *.
    by rewrite check_auth_fst, Hraise.
  - destruct fuel as [|fuel]; [lia|]. simpl.
    pose proof (Hfalse 0 ltac:(lia)) as H0. simpl in H0.
    rewrite check_auth_fst, H0, reopen_ok by done.
    apply IH; [done| |done|lia].
    intros k Hk. apply (Hfalse (S k)). lia.
Qed.

End Reopening.

(** X1: whatever the browser does, faults included, [authenticate] never
    returns [False], and between its start and its end it does nothing but
    reopen: every event it adds is a quit, a driver started with the profile
    options alone (never headless), the target URL or the authentication
    wait. *)
Theorem authenticate_only_reopens :
  forall (B : browser) (CF : config) (fuel : nat) (w w' : world)
         (r : outcome bool),
    authenticate B CF fuel w = Some (r, w') ->
    r <> Return false /\
    exists evs, trace w' = trace w ++ evs /\ Forall (is_reopen_event CF) evs.
Proof. intros B CF fuel w w' r. apply authenticate_trace. Qed.

Lemma authenticate_only_reopens_witness :
  Return true <> Return false /\
  exists evs,
    trace (after_cycles sample_config 2 sample_world)
      = trace sample_world ++ evs /\
    Forall (is_reopen_event sample_config) evs.
Proof.
  apply (authenticate_only_reopens sample_browser sample_config 3
           sample_world (after_cycles sample_config 2 sample_world)
           (Return true)).
  reflexivity.
Defined.

(** X2: an unrecognised page is not retried: when the check fails [n]
    times and then raises, and the driver does not fault, [authenticate]
    raises that same exception after exactly [n] reopen cycles and in the
    world those cycles left, with no further attempt. *)
Theorem authenticate_unknown_state :
  forall (B : browser) (CF : config) (n : nat) (w : world) (x : exn),
    no_faults B ->
    (forall k, k < n ->
       fst (check_auth B CF (after_cycles CF k w)) = Return false) ->
    fst (check_auth B CF (after_cycles CF n w)) = Raise x ->
    forall fuel, n < fuel ->
      authenticate B CF fuel w = Some (Raise x, after_cycles CF n w) /\
      drivers_started (trace (after_cycles CF n w))
        = drivers_started (trace w) + n.
Proof.
  intros B CF n w x HB Hfalse Hraise fuel Hfuel. split.
  - by apply authenticate_raises_after.
  - apply drivers_started_after_cycles.
Qed.

Lemma authenticate_unknown_state_witness :
  authenticate confused_browser sample_config 5 sample_world
    = Some (Raise (Exception "Whatsapp Web not found!"),
            after_cycles sample_config 1 sample_world) /\
  drivers_started (trace (after_cycles sample_config 1 sample_world))
    = drivers_started (trace sample_world) + 1.
Proof.
  apply (authenticate_unknown_state confused_browser sample_config 1
           sample_world (Exception "Whatsapp Web not found!")).
  - intros tr ev. reflexivity.
  - intros k Hk. destruct k as [|k]; [reflexivity|lia].
  - reflexivity.
  - lia.
Defined.

(* ===================================================================== *)
(** ** More on contacts, the composer and the remaining methods *)
(* ===================================================================== *)

Section Elements.

Variable B : browser.
Variable CF : config.

(** A lookup that is not true has handed back [False]. *)
Lemma not_found_false (name : string) (w : world) :
  found B CF name w = false ->
  find_element B CF name w = (Return (VBool false), w).
Proof.
  unfold found. intros Hnot.
  destruct (find_element_cases B CF name w) as [H|[e H]];
    rewrite H in Hnot; done.
Qed.

End Elements.

(** X3: when the search box is found and the driver does not fault,
    [open_contact] clicks and clears the box, types the name letter by
    letter and waits; it then returns [True] after one click on the entry
    whose title is the name, if the browser finds one, and [False], with
    nothing more done, if it does not. *)
Theorem open_contact_result :
  forall (B : browser) (CF : config) (contact : string) (w : world)
         (e : element),
    no_faults B ->
    find_element B CF "search" w = (Return (VElem e), w) ->
    open_contact B CF contact w =
    match locate_in B (trace (search_typed CF e contact w)) e "xpath"
            (contact_xpath contact) with
    | Return first_contact =>
        (Return true,
         extend (search_typed CF e contact w) [Click first_contact])
    | Raise _ => (Return false, search_typed CF e contact w)
    end.
Proof.
  intros B CF contact w e HB Hsearch. unfold open_contact.
  erewrite bind_ok by exact Hsearch.
  erewrite bind_ok by (by apply click_ok).
  erewrite bind_ok by (by apply send_keys_ok).
  erewrite bind_ok
    by (by apply (for_each_send_keys_ok B (fun c => [Char c]))).
  erewrite bind_ok by (unfold sleep, emit; reflexivity).
  rewrite !extend_extend.
  change (extend w _) with (search_typed CF e contact w).
  set (w1 := search_typed CF e contact w). clearbody w1.
  unfold try_except, element_find_element, contact_xpath.
  cbn [as_element]. unfold bind, ret.
  destruct (locate_in B (trace w1) e "xpath" _) as [fc|x]; [|done].
  by rewrite click_ok by done.
Qed.

Lemma open_contact_result_witness :
  open_contact steady_browser sample_config "Dan" sample_world
    = (Return true,
       extend (search_typed sample_config 5 "Dan" sample_world) [Click 8]).
Proof.
  apply (open_contact_result steady_browser sample_config "Dan"
           sample_world 5).
  - intros tr ev. reflexivity.
  - reflexivity.
Defined.

Example open_contact_unlisted :
  open_contact steady_browser sample_config "Eve" sample_world
    = (Return false, search_typed sample_config 5 "Eve" sample_world).
Proof. reflexivity. Qed.

Example open_contact_stiff :
  open_contact stiff_browser sample_config "Dan" sample_world
    = (Raise WebDriverException, sample_world).
Proof. reflexivity. Qed.

(** X4: when the message input is not found, [send_messages] raises an
    attribute error on the [False] it was handed, and nothing is typed or
    sent. *)
Theorem send_messages_needs_input :
  forall (B : browser) (CF : config) (message : string) (w : world),
    found B CF "message_input" w = false ->
    send_messages B CF message w
      = (Raise (AttributeError "bool" "click"), w).
Proof.
  intros B CF message w Hnot. unfold send_messages.
  by erewrite bind_ok by (by apply not_found_false).
Qed.

Lemma send_messages_needs_input_witness :
  send_messages lost_browser sample_config "hi" sample_world
    = (Raise (AttributeError "bool" "click"), sample_world).
Proof.
  apply (send_messages_needs_input lost_browser sample_config "hi"
           sample_world).
  reflexivity.
Defined.

(** X5: [load_more_messages] returns [False], with nothing done, exactly
    when the control is not found; when it is found the method clicks it
    once and waits the default threshold before returning [True], and a
    fault of that click is raised to the caller with nothing recorded. *)
Theorem load_more_messages_result :
  forall (B : browser) (CF : config) (w : world),
    WhatsBot.load_more_messages B CF w =
    match fst (find_element B CF "load_more_messages" w) with
    | Return (VElem e) =>
        match fault B (trace w) (Click e) with
        | None =>
            (Return true, extend w [Click e; Sleep (threshold_default CF)])
        | Some x => (Raise x, w)
        end
    | _ => (Return false, w)
    end.
Proof.
  intros B CF w. unfold WhatsBot.load_more_messages.
  destruct (find_element_cases B CF "load_more_messages" w) as [H|[e H]];
    erewrite bind_ok by exact H; rewrite H; simpl; [done|].
  unfold bind, click, act, sleep, emit. simpl. unfold bind, act. simpl.
  destruct (fault B (trace w) (Click e)); [done|].
  by rewrite extend_extend.
Qed.

(** X6: [last_message] hands back a string or raises, never [False] or
    [None]: the empty string when the element is not found, the element's
    text when it is, and the exception of the text read when that faults;
    the world is left as it was. *)
Theorem last_message_result :
  forall (B : browser) (CF : config)
         (text : list event -> element -> outcome string) (w : world),
    WhatsBot.last_message B CF text w =
    match fst (find_element B CF "last_message" w) with
    | Return (VElem e) =>
        match text (trace w) e with
        | Return t => (Return (VStr t), w)
        | Raise x => (Raise x, w)
        end
    | _ => (Return (VStr ""), w)
    end.
Proof.
  intros B CF text w. unfold WhatsBot.last_message.
  destruct (find_element_cases B CF "last_message" w) as [H|[e H]];
    erewrite bind_ok by exact H; rewrite H; simpl; [done|].
  unfold bind, WhatsBot.element_text, ret. simpl. unfold bind, ret. simpl.
  by destruct (text (trace w) e).
Qed.



Example init_sample :
  WhatsBot.init sample_browser sample_config false ∅
    {| driver := 0; spawned := 0; trace := [] |}
  = (Return tt, {[ "profile" ]},
     {| driver := 0; spawned := 1;
        trace := [ Firefox 0 ["--profile"; "profile"]
                     ["--marionette-port"; "2828"];
                   Get 0 "https://web.whatsapp.com"; Sleep 10 ] |}).
Proof. vm_compute. reflexivity. Qed.

(* ===================================================================== *)
(** ** Strings: cutting, joining, stripping *)
(* ===================================================================== *)

Section Strings.

Lemma append_nil_r (s : string) : s +:+ "" = s.
Proof.
  induction s as [|c s IH]; [done|].
  change (String c (s +:+ "") = String c s). by rewrite IH.
Qed.

Lemma append_nil_l (s : string) : "" +:+ s = s.
Proof. reflexivity. Qed.

Lemma append_cons (c : ascii) (a b : string) :
  String c a +:+ b = String c (a +:+ b).
Proof. reflexivity. Qed.

Lemma length_append (a b : string) :
  String.length (a +:+ b) = String.length a + String.length b.
Proof.
  induction a as [|c a IH]; [done|].
  rewrite append_cons. simpl. by rewrite IH.
Qed.

Lemma char_in_append (a b : string) (c : ascii) :
  Py.char_in (a +:+ b) c = Py.char_in a c || Py.char_in b c.
Proof.
  induction a as [|d a IH]; [done|].
  rewrite append_cons. simpl. rewrite IH. by rewrite orb_assoc.
Qed.

Lemma prefix_cons (a b : ascii) (s1 s2 : string) :
  String.prefix (String a s1) (String b s2)
  = Ascii.eqb a b && String.prefix s1 s2.
Proof.
  cbn [String.prefix]. destruct (ascii_dec a b) as [->|Hab].
  - by rewrite Ascii.eqb_refl.
  - by destruct (Ascii.eqb_spec a b).
Qed.

Lemma prefix_append (sep rest : string) :
  String.prefix sep (sep +:+ rest) = true.
Proof.
  induction sep as [|a sep IH]; [apply prefix_nil|].
  by rewrite append_cons, prefix_cons, Ascii.eqb_refl, IH.
Qed.

(** A string of which [sep] is a prefix is [sep] followed by a rest. *)
Lemma prefix_inv (sep : string) :
  forall s, String.prefix sep s = true -> exists rest, s = sep +:+ rest.
Proof.
  induction sep as [|a sep IH]; intros s H.
  - by exists s.
  - destruct s as [|b s]; [done|].
    rewrite prefix_cons in H. apply andb_true_iff in H as [Hab Hs].
    apply Ascii.eqb_eq in Hab as ->.
    destruct (IH s Hs) as [rest ->]. by exists rest.
Qed.

(** Characters that are still to be skipped are skipped. *)
Lemma split_from_skip (sep : string) (k : string) :
  forall cur rest,
    Py.split_from sep (String.length k) cur (k +:+ rest)
    = Py.split_from sep 0 cur rest.
Proof.
  induction k as [|c k IH]; intros cur rest; [done|].
  rewrite append_cons. simpl. apply IH.
Qed.

(** At a separator the piece ends and a new one starts after it. *)
Lemma split_from_separator (a : ascii) (sep' cur rest : string) :
  Py.split_from (String a sep') 0 cur (String a sep' +:+ rest)
  = cur :: Py.split_from (String a sep') 0 "" rest.
Proof.
  rewrite append_cons. cbn [Py.split_from].
  rewrite prefix_cons, Ascii.eqb_refl, prefix_append. simpl.
  rewrite Nat.sub_0_r. f_equal. apply split_from_skip.
Qed.

(** Away from a separator the character joins the piece. *)
Lemma split_from_char (sep cur : string) (c : ascii) (s : string) :
  String.prefix sep (String c s) = false ->
  Py.split_from sep 0 cur (String c s)
  = Py.split_from sep 0 (cur +:+ String c "") s.
Proof. intros H. cbn [Py.split_from]. by rewrite H. Qed.

Lemma split_from_nonempty (sep : string) (s : string) :
  forall skip cur, Py.split_from sep skip cur s <> [].
Proof.
  induction s as [|c s IH]; intros skip cur; [done|].
  cbn [Py.split_from]. destruct skip as [|k]; [|apply IH].
  destruct (String.prefix sep (String c s)); [done|apply IH].
Qed.

Lemma concat_cons (sep x : string) (xs : list string) :
  xs <> [] -> String.concat sep (x :: xs) = x +:+ sep +:+ String.concat sep xs.
Proof. by destruct xs. Qed.

(** Joining the pieces with the separator gives the string back. *)
Lemma join_split_from (sep : string) :
  sep <> "" ->
  forall (n : nat) (s cur : string),
    String.length s <= n ->
    String.concat sep (Py.split_from sep 0 cur s) = cur +:+ s.
Proof.
  intros Hsep. destruct sep as [|a sep']; [done|].
  induction n as [|n IH]; intros s cur Hn.
  - destruct s; simpl in Hn; [|lia]. simpl. by rewrite append_nil_r.
  - destruct s as [|c s]; [simpl; by rewrite append_nil_r|].
    destruct (String.prefix (String a sep') (String c s)) eqn:Hp.
    + apply prefix_inv in Hp as [rest Hrest]. rewrite Hrest.
      rewrite split_from_separator.
      rewrite concat_cons by apply split_from_nonempty.
      rewrite IH; [done|].
      apply (f_equal String.length) in Hrest.
      rewrite length_append in Hrest. simpl in Hrest, Hn. lia.
    + rewrite split_from_char by done.
      rewrite IH by (simpl in Hn; lia).
      by rewrite append_assoc.
Qed.

Lemma join_split (sep s : string) :
  sep <> "" -> String.concat sep (Py.split sep s) = s.
Proof.
  intros Hsep. unfold Py.split.
  by rewrite (join_split_from sep Hsep (String.length s)).
Qed.

(** A string without the first character of the separator is one piece. *)
Lemma split_from_lacks (a : ascii) (sep' : string) (s : string) :
  forall cur,
    lacks a s = true ->
    Py.split_from (String a sep') 0 cur s = [cur +:+ s].
Proof.
  unfold lacks. induction s as [|c s IH]; intros cur H.
  - simpl. by rewrite append_nil_r.
  - simpl in H. apply negb_true_iff, orb_false_iff in H as [Hc Hs].
    rewrite split_from_char.
    + rewrite IH by (by rewrite Hs). by rewrite append_assoc.
    + by rewrite prefix_cons, Hc.
Qed.

(** Up to the first separator. *)
Lemma split_from_until (a : ascii) (sep' : string) (t : string) :
  forall cur rest,
    lacks a t = true ->
    Py.split_from (String a sep') 0 cur (t +:+ String a sep' +:+ rest)
    = (cur +:+ t) :: Py.split_from (String a sep') 0 "" rest.
Proof.
  unfold lacks. induction t as [|c t IH]; intros cur rest H.
  - change ("" +:+ String a sep' +:+ rest) with (String a sep' +:+ rest).
    by rewrite split_from_separator, append_nil_r.
  - simpl in H. apply negb_true_iff, orb_false_iff in H as [Hc Ht].
    rewrite append_cons, split_from_char.
    + rewrite IH by (by rewrite Ht). by rewrite append_assoc.
    + by rewrite prefix_cons, Hc.
Qed.

(** Pieces hold no character that the string does not hold. *)
Lemma split_from_pieces_lack (sep : string) (c : ascii) (s : string) :
  forall skip cur,
    lacks c cur = true -> lacks c s = true ->
    Forall (fun piece => lacks c piece = true)
           (Py.split_from sep skip cur s).
Proof.
  unfold lacks. induction s as [|d s IH]; intros skip cur Hcur Hs.
  - by constructor.
  - simpl in Hs. apply negb_true_iff, orb_false_iff in Hs as [Hd Hs].
    assert (Hs' : negb (Py.char_in s c) = true) by (by rewrite Hs).
    cbn [Py.split_from]. destruct skip as [|k]; [|by apply IH].
    destruct (String.prefix sep (String d s)).
    + constructor; [done|]. by apply IH.
    + apply IH; [|done].
      rewrite char_in_append. simpl.
      apply negb_true_iff in Hcur. by rewrite Hcur, Hd.
Qed.

End Strings.

Section Stripping.

Variable p : ascii -> bool.

Lemma rstrip_cons (c : ascii) (s : string) :
  Py.rstrip_by p (String c s)
  = match Py.rstrip_by p s with
    | EmptyString => if p c then EmptyString else String c EmptyString
    | r => String c r
    end.
Proof. reflexivity. Qed.

(** A string whose last character stays is not touched on the right. *)
Lemma rstrip_keep (s : string) :
  forall c, p (last_char c s) = false ->
            Py.rstrip_by p (String c s) = String c s.
Proof.
  induction s as [|d s IH]; intros c H.
  - simpl in *. by rewrite H.
  - rewrite rstrip_cons, IH by done. done.
Qed.

Lemma last_char_append (a : string) :
  forall c d b, last_char c (a +:+ String d b) = last_char d b.
Proof.
  induction a as [|x a IH]; intros c d b; [done|].
  rewrite append_cons. simpl. apply IH.
Qed.

Lemma rstrip_append_keep (a : string) (d : ascii) (b : string) :
  p (last_char d b) = false ->
  Py.rstrip_by p (a +:+ String d b) = a +:+ String d b.
Proof.
  intros H. destruct a as [|c a]; [by apply rstrip_keep|].
  rewrite append_cons. apply rstrip_keep. by rewrite last_char_append.
Qed.

(** A last character that goes is as if it had not been there. *)
Lemma rstrip_snoc (s : string) (c : ascii) :
  p c = true ->
  Py.rstrip_by p (s +:+ String c "") = Py.rstrip_by p s.
Proof.
  intros H. induction s as [|d s IH].
  - simpl. by rewrite H.
  - by rewrite append_cons, !rstrip_cons, IH.
Qed.

(** Stripping leaves a string with clean ends as it is. *)
Lemma strip_clean (s : string) :
  clean_ends p s = true -> Py.rstrip_by p (Py.lstrip_by p s) = s.
Proof.
  destruct s as [|c s]; [done|]. simpl.
  intros H. apply andb_true_iff in H as [Hc Hl].
  apply negb_true_iff in Hc, Hl. rewrite Hc. by apply rstrip_keep.
Qed.

(** Stripping adds no character. *)
Lemma lstrip_lacks (c : ascii) (s : string) :
  lacks c s = true -> lacks c (Py.lstrip_by p s) = true.
Proof.
  unfold lacks. induction s as [|d s IH]; [done|]. simpl.
  intros H. destruct (p d); [|done].
  apply IH. apply negb_true_iff, orb_false_iff in H as [_ ->]. done.
Qed.

Lemma rstrip_lacks (c : ascii) (s : string) :
  lacks c s = true -> lacks c (Py.rstrip_by p s) = true.
Proof.
  unfold lacks. induction s as [|d s IH]; [done|].
  rewrite rstrip_cons. simpl.
  intros H. apply negb_true_iff, orb_false_iff in H as [Hd Hs].
  specialize (IH ltac:(by rewrite Hs)).
  destruct (Py.rstrip_by p s) as [|x r].
  - destruct (p d); simpl; [done|]. by rewrite Hd.
  - simpl in *. by rewrite Hd.
Qed.

End Stripping.

(* ===================================================================== *)
(** ** More on the metadata parse *)
(* ===================================================================== *)

Section Metadata.

Lemma eqb_sym (a b : ascii) : Ascii.eqb a b = Ascii.eqb b a.
Proof.
  destruct (Ascii.eqb_spec a b) as [->|H].
  - by rewrite Ascii.eqb_refl.
  - destruct (Ascii.eqb_spec b a); congruence.
Qed.

(** The first character of a string that holds no bracket is none. *)
Lemma no_bracket_first (c : ascii) (s : string) :
  lacks "["%char (String c s) = true ->
  lacks "]"%char (String c s) = true ->
  Py.char_in "[]" c = false.
Proof.
  unfold lacks. cbn [Py.char_in]. intros H1 H2.
  apply negb_true_iff, orb_false_iff in H1 as [H1 _].
  apply negb_true_iff, orb_false_iff in H2 as [H2 _].
  by rewrite (eqb_sym c "["), (eqb_sym c "]"), H1, H2.
Qed.

(** The brackets come off the attribute. *)
Lemma strip_brackets_pre_plain_text (time date sender : string) :
  lacks "["%char time = true -> lacks "]"%char time = true ->
  Py.strip_chars "[]" (pre_plain_text time date sender)
  = time +:+ ", " +:+ date +:+ "] " +:+ sender +:+ ": ".
Proof.
  intros H1 H2. unfold Py.strip_chars, pre_plain_text.
  change ("[" +:+ time +:+ ", " +:+ date +:+ "] " +:+ sender +:+ ": ")
    with (String "[" (time +:+ ", " +:+ date +:+ "] " +:+ sender +:+ ": ")).
  cbn [Py.lstrip_by]. change (Py.char_in "[]" "[") with true. cbv iota.
  assert (Hl : Py.lstrip_by (Py.char_in "[]")
                 (time +:+ ", " +:+ date +:+ "] " +:+ sender +:+ ": ")
               = time +:+ ", " +:+ date +:+ "] " +:+ sender +:+ ": ").
  { destruct time as [|c t]; [done|].
    rewrite append_cons. cbn [Py.lstrip_by].
    by rewrite (no_bracket_first c t). }
  rewrite Hl.
  change (", " +:+ date +:+ "] " +:+ sender +:+ ": ")
    with (String "," (" " +:+ date +:+ "] " +:+ sender +:+ ": ")).
  apply rstrip_append_keep.
  change (" " +:+ date +:+ "] " +:+ sender +:+ ": ")
    with (String " " (date +:+ String "]" (" " +:+ sender +:+ ": "))).
  simpl. rewrite last_char_append.
  change (" " +:+ sender +:+ ": ")
    with (String " " (sender +:+ String ":" " ")).
  simpl. by rewrite last_char_append.
Qed.

(** The text after the bracket gives the sender back. *)
Lemma strip_sender (sender : string) :
  clean_ends (Py.char_in ": ") sender = true ->
  Py.strip_chars ": " (" " +:+ sender +:+ ": ") = sender.
Proof.
  intros H. unfold Py.strip_chars.
  change (" " +:+ sender +:+ ": ") with (String " " (sender +:+ ": ")).
  cbn [Py.lstrip_by]. change (Py.char_in ": " " ") with true. cbv iota.
  destruct sender as [|c s]; [done|].
  pose proof H as H'. cbn [clean_ends] in H'.
  apply andb_true_iff in H' as [Hc Hl]. apply negb_true_iff in Hc, Hl.
  rewrite append_cons. cbn [Py.lstrip_by]. rewrite Hc.
  rewrite <- append_cons.
  change ": " with (":" +:+ " "). rewrite <- append_assoc.
  rewrite !rstrip_snoc by done. by apply rstrip_keep.
Qed.

(** The parse of an attribute written from a plain triple. *)
Lemma parse_pre_plain_text (time date sender : string) (m : message_data) :
  plain_metadata time date sender = true ->
  parse_pre_text (pre_plain_text time date sender) m
  = Return (set_sender sender (set_timestamp date (set_time time m))).
Proof.
  unfold plain_metadata. intros H.
  repeat (apply andb_true_iff in H as [H ?]).
  unfold parse_pre_text.
  rewrite strip_brackets_pre_plain_text by done.
  replace (time +:+ ", " +:+ date +:+ "] " +:+ sender +:+ ": ")
    with ((time +:+ ", " +:+ date) +:+ "]" +:+ (" " +:+ sender +:+ ": "))
    by (by rewrite !append_assoc).
  unfold Py.split at 1. rewrite split_from_until.
  2: { unfold lacks in *. rewrite !char_in_append. simpl.
       by repeat match goal with
          | H : negb _ = true |- _ => apply negb_true_iff in H; rewrite H
          end. }
  rewrite split_from_lacks.
  2: { unfold lacks in *. rewrite !char_in_append. simpl.
       by repeat match goal with
          | H : negb _ = true |- _ => apply negb_true_iff in H; rewrite H
          end. }
  rewrite !append_nil_l. cbn [unpack2 obind].
  unfold Py.split. rewrite split_from_until by done.
  rewrite split_from_lacks by done.
  rewrite !append_nil_l. cbn [unpack2 obind].
  unfold Py.strip. rewrite !strip_clean by done.
  by rewrite strip_sender.
Qed.

End Metadata.

Section MissingPieces.

(** Without a closing bracket, or without a comma, the parse raises. *)
Lemma parse_pre_text_missing (pre_text : string) (m : message_data) :
  lacks "]"%char pre_text = true \/ lacks ","%char pre_text = true ->
  parse_pre_text pre_text m = Raise ValueError.
Proof.
  intros [H|H]; unfold parse_pre_text, Py.strip_chars, Py.split.
  - rewrite split_from_lacks by (by apply rstrip_lacks, lstrip_lacks).
    done.
  - pose proof (split_from_pieces_lack "]" "," _ 0 ""
                  eq_refl
                  (rstrip_lacks (Py.char_in "[]") _ _
                     (lstrip_lacks (Py.char_in "[]") _ _ H)))
      as Hpieces.
    destruct (Py.split_from "]" 0 "" _) as [|ts [|sd [|x l]]];
      [done|done| |done].
    apply Forall_cons in Hpieces as [Hts _]. cbn [unpack2 obind].
    by rewrite split_from_lacks.
Qed.

End MissingPieces.

(** X8: a metadata attribute written as ["[time, date] sender: "] from a
    plain triple (no bracket or comma in time and date, no closing bracket
    in the sender, clean ends) is read back field by field: the record of
    the message carries exactly that time, date and sender.  The sender may
    hold colons, blanks and commas inside. *)
Theorem metadata_round_trip :
  forall (msg copyable_text : located) (time date sender : string),
    find msg "div" ["copyable-text"] = Some copyable_text ->
    get (snd copyable_text) "data-pre-plain-text" ""
      = pre_plain_text time date sender ->
    plain_metadata time date sender = true ->
    exists r,
      message_record msg = Return r /\
      md_time r = time /\ md_timestamp r = date /\ md_sender r = sender.
Proof.
  intros msg ct time date sender Hfind Hget Hplain.
  unfold message_record. rewrite Hfind, Hget.
  change (nonempty (pre_plain_text time date sender)) with true. cbv iota.
  unfold try_parse_pre_text.
  rewrite parse_pre_plain_text by done. cbn [obind].
  destruct (find ct "span" ["selectable-text"]); eauto.
Qed.

Lemma metadata_round_trip_witness :
  exists r,
    message_record ([], sample_last) = Return r /\
    md_time r = "18:45" /\ md_timestamp r = "15/1/2025" /\
    md_sender r = "Dan Radeand".
Proof.
  apply (metadata_round_trip ([], sample_last)
           ([sample_last],
            Tag "div" ["copyable-text"]
              {[ "data-pre-plain-text" := "[18:45, 15/1/2025] Dan Radeand: " ]}
              [ Tag "span" ["selectable-text"] ∅ [NavigableString "bye"] ])
           "18:45" "15/1/2025" "Dan Radeand").
  - reflexivity.
  - reflexivity.
  - reflexivity.
Defined.

Example parse_sender_with_colon :
  parse_pre_text (pre_plain_text "6:43 PM" "1/15/2025" "Ann, the 2nd: hi")
    (blank "in")
  = Return {| md_id := ""; md_timestamp := "1/15/2025"; md_time := "6:43 PM";
              md_sender := "Ann, the 2nd: hi"; md_message := "";
              md_type := "in" |}.
Proof. reflexivity. Qed.

(** X9: a metadata attribute that holds no closing bracket, or no comma,
    leaves time, date and sender of the record empty; the record is still
    built. *)
Theorem metadata_missing_pieces :
  forall (msg copyable_text : located) (pre_text : string),
    find msg "div" ["copyable-text"] = Some copyable_text ->
    get (snd copyable_text) "data-pre-plain-text" "" = pre_text ->
    lacks "]"%char pre_text = true \/ lacks ","%char pre_text = true ->
    exists r,
      message_record msg = Return r /\
      md_time r = "" /\ md_timestamp r = "" /\ md_sender r = "".
Proof.
  intros msg ct pre Hfind Hget Hmiss.
  exists (record_of msg). split; [apply message_record_record_of|].
  apply record_of_unusable_metadata.
  unfold metadata_unusable. rewrite Hfind, Hget.
  by rewrite (parse_pre_text_missing pre (blank "") Hmiss), orb_true_r.
Qed.

Lemma metadata_missing_pieces_witness :
  exists r,
    message_record
      ([], Tag "div" ["message-in"] ∅
             [ Tag "div" ["copyable-text"]
                 {[ "data-pre-plain-text" := "18:43 15/1/2025 Dan: " ]} [] ])
      = Return r /\
    md_time r = "" /\ md_timestamp r = "" /\ md_sender r = "".
Proof.
  apply (metadata_missing_pieces
           ([], Tag "div" ["message-in"] ∅
                  [ Tag "div" ["copyable-text"]
                      {[ "data-pre-plain-text" := "18:43 15/1/2025 Dan: " ]}
                      [] ])
           ([ Tag "div" ["message-in"] ∅
                [ Tag "div" ["copyable-text"]
                    {[ "data-pre-plain-text" := "18:43 15/1/2025 Dan: " ]}
                    [] ] ],
            Tag "div" ["copyable-text"]
              {[ "data-pre-plain-text" := "18:43 15/1/2025 Dan: " ]} [])
           "18:43 15/1/2025 Dan: ").
  - reflexivity.
  - reflexivity.
  - left. reflexivity.
Defined.

(** X10: the records of a document made of two parts are the records of
    the first part followed by those of the second: what stands before or
    after a message at the top of the block does not change its record. *)
Theorem extract_concatenation :
  forall d1 d2 : list node,
    exists rs1 rs2,
      extract d1 = Return rs1 /\ extract d2 = Return rs2 /\
      extract (d1 ++ d2) = Return (rs1 ++ rs2).
Proof.
  intros d1 d2.
  exists (List.map record_of (message_nodes d1)),
         (List.map record_of (message_nodes d2)).
  unfold extract. fold (message_nodes d1) (message_nodes d2)
                       (message_nodes (d1 ++ d2)).
  by rewrite !extract_loop_map, message_nodes_app, List.map_app.
Qed.

(** X11: whatever the browser shows or does, a result of [message_block]
    is never true: it is the empty string or [None], so that the caller's
    test [if messages:] always fails. *)
Theorem message_block_never_true :
  forall (B : browser) (CF : config) (w w' : world) (v : value),
    message_block B CF w = (Return v, w') -> truthy v = false.
Proof.
  intros B CF w w' v. unfold message_block.
  destruct (find_element_cases B CF "message_block" w) as [H|[e H]];
    erewrite bind_ok by exact H; simpl.
  - by intros [= <- <-].
  - unfold bind, soup_of_inner_html, lift, emit, ret. simpl.
    unfold bind, ret. simpl.
    destruct (inner_html B (trace w) e) as [doc|x]; [|done].
    destruct (extract doc) as [rs|x]; [|done].
    by intros [= <- <-].
Qed.

Lemma message_block_never_true_witness : truthy VNone = false.
Proof.
  apply (message_block_never_true sample_browser sample_config sample_world
           (extend sample_world [Print sample_records]) VNone).
  reflexivity.
Defined.

(* ===================================================================== *)
(** ** More on the composer *)
(* ===================================================================== *)

Section TypedText.

Lemma typed_text_app (a b : list (list key)) :
  typed_text (a ++ b) = typed_text a +:+ typed_text b.
Proof.
  unfold typed_text. induction a as [|k a IH]; [done|].
  cbn [app fold_right]. by rewrite IH, append_assoc.
Qed.

Lemma typed_text_keystrokes (text : string) :
  typed_text (keystrokes text) = text.
Proof.
  unfold typed_text, keystrokes, Py.chars.
  induction text as [|c s IH]; [done|].
  cbn [list_ascii_of_string List.map fold_right key_text].
  by rewrite IH.
Qed.

(** The lines, each ended by a soft newline, read as the lines joined by
    newlines, with one more newline at the end. *)
Lemma typed_text_lines (lines : list string) :
  lines <> [] ->
  typed_text (lines_each_ended lines) = String.concat nl lines +:+ nl.
Proof.
  unfold lines_each_ended.
  induction lines as [|text lines IH]; [done|]. intros _.
  cbn [flat_map]. rewrite !typed_text_app, typed_text_keystrokes.
  change (typed_text [soft_newline]) with nl.
  destruct lines as [|text' lines].
  - by rewrite append_nil_r.
  - rewrite IH by done.
    rewrite (concat_cons nl text (text' :: lines)) by done.
    by rewrite !append_assoc.
Qed.

(** What [send_messages] does when nothing stands in its way. *)
Lemma send_messages_trace (B : browser) (CF : config) (message : string)
    (w : world) (e : element) :
  no_faults B ->
  fst (find_element B CF "message_input" w) = Return (VElem e) ->
  send_messages B CF message w
  = (Return tt,
     extend w (Click e ::
       List.map (SendKeys e)
         (warm_up ++ lines_each_ended (composed_lines CF message)
                  ++ [submit]))).
Proof.
  intros HB Hfound. unfold send_messages.
  erewrite bind_ok by (rewrite find_element_found, Hfound; reflexivity).
  erewrite bind_ok by (by apply click_ok).
  erewrite bind_ok
    by (by apply (for_each_send_keys_ok B (fun c => [Char c]))).
  erewrite bind_ok by (by apply send_keys_ok).
  fold (composed_lines CF message).
  erewrite bind_ok by (by apply for_each_line_ok).
  rewrite send_keys_ok by done. rewrite !extend_extend.
  f_equal. f_equal. unfold warm_up, keystrokes, submit.
  rewrite !List.map_app, List.map_map, <- !app_assoc. done.
Qed.

End TypedText.

(** X12: nothing of the text is lost or changed on its way into the input
    box: between the warm-up and the final submit key, the key events that
    [send_messages] sends read, character for character and with each soft
    newline as a line break, as the signature line followed by the message
    and one more line break. *)
Theorem send_messages_types_the_text :
  forall (B : browser) (CF : config) (message : string) (w : world)
         (e : element),
    no_faults B ->
    fst (find_element B CF "message_input" w) = Return (VElem e) ->
    exists ks,
      send_messages B CF message w
        = (Return tt,
           extend w (Click e ::
             List.map (SendKeys e) (warm_up ++ ks ++ [submit]))) /\
      typed_text ks
        = ((" *" +:+ bot_name CF +:+ "* :" +:+ nl) +:+ message) +:+ nl.
Proof.
  intros B CF message w e HB Hfound.
  exists (lines_each_ended (composed_lines CF message)). split.
  - by apply send_messages_trace.
  - rewrite typed_text_lines by apply split_from_nonempty.
    unfold composed_lines. by rewrite join_split.
Qed.

Lemma send_messages_types_the_text_witness :
  exists ks,
    send_messages sample_browser sample_config ("a" +:+ nl +:+ "b")
      sample_world
      = (Return tt,
         extend sample_world (Click 3 ::
           List.map (SendKeys 3) (warm_up ++ ks ++ [submit]))) /\
    typed_text ks
      = ((" *" +:+ bot_name sample_config +:+ "* :" +:+ nl)
         +:+ ("a" +:+ nl +:+ "b")) +:+ nl.
Proof.
  apply (send_messages_types_the_text sample_browser sample_config
           ("a" +:+ nl +:+ "b") sample_world 3).
  - intros tr ev. reflexivity.
  - reflexivity.
Defined.

(* ===================================================================== *)
(** ** The interactive driver *)
(* ===================================================================== *)

Section Driver.

Import Example.

Variable B : browser.
Variable CF : config.
Variable text : list event -> element -> outcome string.

Lemma io_bind_ok {A A'} (c : IO A) (k : A -> IO A') (h h' : host)
    (w w' : world) (a : A) :
  c h w = Some (Return a, h', w') -> io_bind c k h w = k a h' w'.
Proof. intros H. unfold io_bind. by rewrite H. Qed.

Lemma after_reading_nil (h : host) : after_reading h (stdin h) [] = h.
Proof. destruct h. unfold after_reading. simpl. by rewrite app_nil_r. Qed.

Lemma after_reading_again (h : host) (r1 r2 : list string)
    (o1 o2 : list printed) :
  after_reading (after_reading h r1 o1) r2 o2 = after_reading h r2 (o1 ++ o2).
Proof. unfold after_reading. simpl. by rewrite app_assoc. Qed.

Lemma write_ok (p : printed) (h : host) (w : world) :
  write p h w = Some (Return tt, after_reading h (stdin h) [p], w).
Proof. reflexivity. Qed.

(** Reading a line that is there. *)
Lemma input_ok (prompt line : string) (rest : list string) (h : host)
    (w : world) :
  stdin h = line :: rest ->
  input prompt h w
  = Some (Return line, after_reading h rest [Prompt prompt], w).
Proof.
  intros H. unfold input, io_bind. rewrite write_ok. simpl. by rewrite H.
Qed.

Lemma bot_ok {A} (c : M A) (r : outcome A) (h : host) (w w' : world) :
  c w = (r, w') -> bot c h w = Some (r, h, w').
Proof. intros H. unfold bot. by rewrite H. Qed.

Lemma sent_cons (e : element) (m : string) (msgs : list string) (w : world) :
  sent CF e msgs (extend w (message_events CF e m)) = sent CF e (m :: msgs) w.
Proof. unfold sent. simpl. by rewrite extend_extend. Qed.

(** The message loop, line by line. *)
Lemma send_loop_ok (e : element) (q : string) (rest : list string) :
  no_faults B ->
  (forall w', find_element B CF "message_input" w' = (Return (VElem e), w')) ->
  is_command q = true ->
  forall (msgs : list string) (fuel : nat) (h : host) (w : world),
    stdin h = msgs ++ q :: rest ->
    forallb (fun m => negb (is_command m)) msgs = true ->
    length msgs < fuel ->
    send_loop B CF fuel h w
    = Some (Return (if String.eqb (lower q) "!end" then GoOn else Leave),
            after_reading h rest
              (repeat (Prompt message_prompt) (S (length msgs))),
            sent CF e msgs w).
Proof.
  intros HB Hinput Hq.
  induction msgs as [|m msgs IH]; intros fuel h w Hin Hmsgs Hfuel;
    (destruct fuel as [|fuel]; [simpl in Hfuel; lia|]); cbn [send_loop].
  - erewrite io_bind_ok by (by apply input_ok).
    unfold sent. simpl. rewrite extend_nil.
    unfold is_command in Hq.
    destruct (String.eqb (lower q) "!end"); [done|].
    simpl in Hq. by rewrite Hq.
  - erewrite io_bind_ok by (by apply input_ok).
    cbn [forallb] in Hmsgs. apply andb_true_iff in Hmsgs as [Hm Hmsgs].
    unfold is_command in Hm.
    apply negb_true_iff, orb_false_iff in Hm as [-> ->].
    erewrite io_bind_ok.
    2: { apply bot_ok. apply send_messages_trace; [done|].
         by rewrite Hinput. }
    fold (message_events CF e m).
    rewrite IH; [|done|done|simpl in Hfuel; lia].
    rewrite after_reading_again, sent_cons. done.
Qed.

End Driver.

Section Running.

Import Example.

Variable B : browser.
Variable CF : config.
Variable text : list event -> element -> outcome string.






End Running.

(** X13: the message loop sends every line typed before the first command
    as a message of its own, in the order typed, and does not send the
    command; [!end], in any case of letters, goes back to the contact
    prompt and [!quit] returns from the program.  (The message input is
    taken to be found whenever asked and the driver not to fault.) *)
Theorem send_loop_sends_each_line :
  forall (B : browser) (CF : config) (e : element) (msgs : list string)
         (q : string) (rest : list string) (fuel : nat)
         (h : Example.host) (w : world),
    no_faults B ->
    (forall w', find_element B CF "message_input" w'
                = (Return (VElem e), w')) ->
    Example.stdin h = msgs ++ q :: rest ->
    forallb (fun m => negb (is_command m)) msgs = true ->
    is_command q = true ->
    length msgs < fuel ->
    Example.send_loop B CF fuel h w
    = Some (Return (if String.eqb (Example.lower q) "!end"
                    then Example.GoOn else Example.Leave),
            after_reading h rest
              (repeat (Example.Prompt message_prompt) (S (length msgs))),
            sent CF e msgs w).
Proof.
  intros B CF e msgs q rest fuel h w HB Hinput Hin Hmsgs Hq Hfuel.
  by apply send_loop_ok.
Qed.

Lemma send_loop_sends_each_line_witness :
  Example.send_loop steady_browser sample_config 3
    (sample_host ["hello"; "!End"; "left over"]) sample_world
  = Some (Return Example.GoOn,
          after_reading (sample_host ["hello"; "!End"; "left over"])
            ["left over"]
            (repeat (Example.Prompt message_prompt) 2),
          sent sample_config 3 ["hello"] sample_world).
Proof.
  apply (send_loop_sends_each_line steady_browser sample_config 3
           ["hello"] "!End" ["left over"] 3
           (sample_host ["hello"; "!End"; "left over"]) sample_world).
  - intros tr ev. reflexivity.
  - intros w'. reflexivity.
  - reflexivity.
  - reflexivity.
  - reflexivity.
  - simpl. lia.
Defined.





Section Reading.

Import Example.

Variable B : browser.
Variable CF : config.

(** A result of [message_block] is not true. *)
Lemma message_block_falsy (w w' : world) (v : value) :
  message_block B CF w = (Return v, w') -> truthy v = false.
Proof.
  unfold message_block.
  destruct (find_element_cases B CF "message_block" w) as [H|[e H]];
    erewrite bind_ok by exact H; simpl.
  - by intros [= <- <-].
  - unfold bind, soup_of_inner_html, lift, emit, ret. simpl.
    unfold bind, ret. simpl.
    destruct (inner_html B (trace w) e) as [doc|x]; [|done].
    destruct (extract doc) as [rs|x]; [|done].
    by intros [= <- <-].
Qed.

(** What the reading loop writes. *)
(** The new output is read off the host. *)
Ltac written_out :=
  eexists; split; [simpl; rewrite <- ?app_assoc; reflexivity | done].

Lemma block_loop_stdout (contact : string) (fuel : nat) :
  forall (h h' : host) (w w' : world) (r : outcome unit),
    block_loop B CF contact fuel h w = Some (r, h', w') ->
    exists out,
      stdout h' = stdout h ++ out /\
      forallb (fun p => negb (is_shown p)) out = true /\
      match out with
      | [] => True
      | p :: _ => p = Line "No messages found"
      end.
Proof.
  induction fuel as [|fuel IH]; intros h h' w w' r; [done|].
  cbn [block_loop]. unfold io_bind at 1. unfold bot at 1.
  destruct (message_block B CF w) as [[v|x] w1] eqn:Emb.
  2: { intros [= <- <- <-]. exists []. by rewrite app_nil_r. }
  rewrite (message_block_falsy _ _ _ Emb).
  unfold io_bind at 1. unfold print at 1. rewrite write_ok.
  unfold io_bind at 1. unfold input at 1. unfold io_bind at 1.
  rewrite write_ok. cbn [stdin after_reading].
  destruct (stdin h) as [|line rest].
  { intros [= <- <- <-]. written_out. }
  destruct (String.eqb (lower line) "more").
  2: { intros [= <- <- <-]. written_out. }
  unfold io_bind at 1. unfold bot at 1.
  destruct (WhatsBot.load_more_messages B CF w1) as [[[|]|x] w2].
  - unfold io_bind at 1. unfold print at 1. rewrite write_ok.
    intros Hrec. apply IH in Hrec as (out & Hout & Hshown & _).
    exists ([Line "No messages found";
             Prompt (nl +:+ "Press Enter to continue, or type 'more' to load more messages: ");
             Line "Loading more messages..."] ++ out).
    split; [|split; [|done]].
    + rewrite Hout. simpl. by rewrite <- !app_assoc.
    + by rewrite forallb_app, Hshown.
  - unfold io_bind at 1. unfold print at 1. rewrite write_ok.
    unfold io_bind at 1. unfold input at 1. unfold io_bind at 1.
    rewrite write_ok. cbn [stdin after_reading].
    destruct rest as [|line2 rest2]; intros [= <- <- <-]; written_out.
  - intros [= <- <- <-]. written_out.
Qed.

End Reading.

(** X16: whatever the browser shows or does, the reading loop of option 3
    never prints a message block of its own: nothing it writes is a printed
    value, and once a block has been read the first thing it writes is
    ["No messages found"]. *)
Theorem block_loop_never_shows :
  forall (B : browser) (CF : config) (contact : string) (fuel : nat)
         (h h' : Example.host) (w w' : world) (r : outcome unit),
    Example.block_loop B CF contact fuel h w = Some (r, h', w') ->
    exists out,
      Example.stdout h' = Example.stdout h ++ out /\
      forallb (fun p => negb (is_shown p)) out = true /\
      match out with
      | [] => True
      | p :: _ => p = Example.Line "No messages found"
      end.
Proof. intros B CF contact fuel h h' w w' r. apply block_loop_stdout. Qed.

Lemma block_loop_never_shows_witness :
  exists out,
    Example.stdout
      (after_reading (sample_host ["more"; ""]) []
         [ Example.Line "No messages found";
           Example.Prompt (nl +:+ "Press Enter to continue, or type 'more' to load more messages: ");
           Example.Line "Loading more messages...";
           Example.Line "No messages found";
           Example.Prompt (nl +:+ "Press Enter to continue, or type 'more' to load more messages: ") ])
    = Example.stdout (sample_host ["more"; ""]) ++ out /\
    forallb (fun p => negb (is_shown p)) out = true /\
    match out with
    | [] => True
    | p :: _ => p = Example.Line "No messages found"
    end.
Proof.
  apply (block_loop_never_shows steady_browser sample_config "Dan" 3
           (sample_host ["more"; ""]) _ sample_world
           (extend sample_world
              [Print sample_records; Click 7; Sleep 2; Print sample_records])
           (Return tt)).
  reflexivity.
Defined.

Example program_sample_session :
  option_map (fun r => Example.stdout (snd (fst r)))
    (Example.send_messages_to_contact steady_browser sample_config
       sample_text 6
       (sample_host ["Eve"; "Dan"; "3"; ""; "!quit"]) nothing_yet)
  = Some ([ Example.Prompt contact_prompt;
            Example.Line "Contact not found";
            Example.Prompt contact_prompt ]
          ++ menu
          ++ [ Example.Line "No messages found";
               Example.Prompt (nl +:+ "Press Enter to continue, or type 'more' to load more messages: ");
               Example.Prompt contact_prompt ]).
Proof. vm_compute. reflexivity. Qed.
